(** * Security camera price scraper: extraction and merge logic

    A shallow embedding of [scraper/scrape_prices.py].  Every Python function
    that takes part in price extraction, merging and orchestration is
    translated into a Rocq function of the same name:

    - [parse_price], [fetch_price], [scrape_all_cameras],
      [load_existing_prices], [merge_prices], [save_prices], [main].

    Conventions of the embedding.

    - Python exceptions are explicit: a computation has type [outcome A], it
      either returns a value or raises an exception of class [exn];
      [try_except] is Python's [try ... except (classes)].
    - A Python [float] is a binary64 number, written as a [spec_float] of the
      Standard Library; [float(s)] is the correctly rounded value of the
      decimal numeral [s] (round to nearest, ties to even).
    - A Python [str] is a [string]; one character of a [string] stands for one
      code point below 256.  On that range the regular expression class [\d]
      is exactly [0-9].
    - The world outside the program (the network, the HTML parser, the
      snapshot file, the clock) is an explicit argument of the functions that
      touch it.
    - Console output ([print]) is not modelled. *)

From Stdlib Require Import ZArith SpecFloat Ascii.
From Stdlib Require String.
From stdpp Require Import gmap strings list fin_maps.

Local Open Scope Z_scope.

(** ** Exceptions *)

Module Py.

(** The exception classes that occur in the program. *)
Inductive exn : Type :=
| Exception
| ValueError
| TypeError
| KeyError
| OSError
| FileNotFoundError
| PermissionError
| JSONDecodeError
| UnicodeDecodeError
| RequestException
| SelectorSyntaxError.

Definition exn_eqb (a b : exn) : bool :=
  match a, b with
  | Exception, Exception | ValueError, ValueError | TypeError, TypeError
  | KeyError, KeyError | OSError, OSError
  | FileNotFoundError, FileNotFoundError
  | PermissionError, PermissionError | JSONDecodeError, JSONDecodeError
  | UnicodeDecodeError, UnicodeDecodeError
  | RequestException, RequestException
  | SelectorSyntaxError, SelectorSyntaxError => true
  | _, _ => false
  end.

(** The direct base class; [Exception] is the root. *)
Definition base (e : exn) : option exn :=
  match e with
  | Exception => None
  | FileNotFoundError | PermissionError | RequestException => Some OSError
  | JSONDecodeError | UnicodeDecodeError => Some ValueError
  | _ => Some Exception
  end.

(** [issubclass e cls]; the class tree has depth three. *)
Definition issubclass (e cls : exn) : bool :=
  exn_eqb e cls
  || match base e with
     | None => false
     | Some b =>
         exn_eqb b cls
         || match base b with
            | None => false
            | Some r => exn_eqb r cls
            end
     end.

Inductive outcome (A : Type) : Type :=
| Return (a : A)
| Raise (e : exn).
Global Arguments Return {A} a.
Global Arguments Raise {A} e.

Global Instance outcome_ret : MRet outcome := @Return.
Global Instance outcome_bind : MBind outcome :=
  λ A B f c, match c with Return a => f a | Raise e => Raise e end.

(** [try: body except classes1: handler1 except classes2: handler2 ...]:
    the first clause that lists a base class of the exception handles it;
    an exception no clause lists goes on to the caller. *)
Fixpoint handle {A} (e : exn) (clauses : list (list exn * outcome A))
    : outcome A :=
  match clauses with
  | [] => Raise e
  | (classes, handler) :: rest =>
      if existsb (issubclass e) classes then handler else handle e rest
  end.

Definition try_except {A} (body : outcome A)
    (clauses : list (list exn * outcome A)) : outcome A :=
  match body with
  | Return a => Return a
  | Raise e => handle e clauses
  end.

(** Truth value of an optional string: [None] and the empty string are false. *)
Definition truthy_str (s : option string) : bool :=
  match s with
  | None | Some EmptyString => false
  | Some _ => true
  end.

End Py.
Import Py.

(** ** Floating-point numbers *)

Module Float.

Definition prec : Z := 53.
Definition emax : Z := 1024.

Definition of_Z (m : Z) : spec_float :=
  match m with
  | Z0 => S754_zero false
  | Zpos p => S754_finite false p 0
  | Zneg p => S754_finite true p 0
  end.

(** The binary64 number nearest to [m / 10^k]; an overflow gives infinity,
    an underflow zero. *)
Definition of_decimal (m : Z) (k : nat) : spec_float :=
  SFdiv prec emax (of_Z m) (of_Z (10 ^ Z.of_nat k)).

(** Truth value of a float: everything but zero (and NaN is true too). *)
Definition truthy (f : spec_float) : bool :=
  match f with
  | S754_zero _ => false
  | _ => true
  end.

(** Truth value of [None] or a float. *)
Definition truthy_opt (p : option spec_float) : bool :=
  match p with
  | None => false
  | Some f => truthy f
  end.

End Float.

(** ** [parse_price] *)

Definition is_digit (c : ascii) : bool :=
  let n := N_of_ascii c in ((48 <=? n) && (n <=? 57))%N.

Definition digit_value (c : ascii) : Z := Z.of_N (N_of_ascii c) - 48.

(** A character the pattern [[^\d.]] does not match, so that [re.sub] keeps
    it. *)
Definition is_price_char (c : ascii) : bool :=
  is_digit c || Ascii.eqb c "."%char.

(** [re.sub(r'[^\d.]', '', s)] *)
Fixpoint re_sub_non_price (s : string) : string :=
  match s with
  | EmptyString => EmptyString
  | String c r =>
      if is_price_char c then String c (re_sub_non_price r)
      else re_sub_non_price r
  end.

(** Reads the leading digits of [s]: the number read so far is [acc], the
    count of digits read so far is [n].  Returns both and the rest. *)
Fixpoint read_digits (s : string) (acc : Z) (n : nat) : Z * nat * string :=
  match s with
  | String c r =>
      if is_digit c then read_digits r (10 * acc + digit_value c) (S n)
      else (acc, n, s)
  | EmptyString => (acc, n, s)
  end.

(** [float(s)] for a string [s] of digits and decimal points, the only
    strings [parse_price] passes to it: a numeral has at least one digit and
    at most one point, anything else is a [ValueError]. *)
Definition py_float (s : string) : outcome spec_float :=
  let '(ip, ni, r1) := read_digits s 0 0 in
  match r1 with
  | EmptyString =>
      if (ni =? 0)%nat then Raise ValueError
      else Return (Float.of_decimal ip 0)
  | String c r2 =>
      if Ascii.eqb c "."%char then
        let '(m, nf, r3) := read_digits r2 ip 0 in
        match r3 with
        | EmptyString =>
            if (ni + nf =? 0)%nat then Raise ValueError
            else Return (Float.of_decimal m nf)
        | String _ _ => Raise ValueError
        end
      else Raise ValueError
  end.

Definition parse_price (price_text : option string)
    : outcome (option spec_float) :=
  if negb (truthy_str price_text) then Return None
  else
    let cleaned := re_sub_non_price (default EmptyString price_text) in
    try_except
      (f ← py_float cleaned; mret (Some f))
      [([ValueError; TypeError], Return None)].

(** ** The page, as [fetch_price] sees it *)

(** An element found by a selector.  The program reads two things of it:
    [element.get_text(strip=True)] and [element.get("content")]. *)
Record Element : Type := {
  get_text : string;
  get_content : option string
}.

(** A parsed page is what [soup.select_one] answers on it: the first element
    that matches the selector, [None] when nothing matches, an exception for
    a selector that is not CSS. *)
Definition Soup : Type := string → outcome (option Element).

(** The network and the HTML parser: [requests.get(url, ...)],
    [response.raise_for_status()] and [BeautifulSoup(response.content, "lxml")].
    A timeout, a transport error or a status that is not 2xx raises
    [RequestException]. *)
Definition Web : Type := string → outcome Soup.

(** ** [fetch_price] *)

Definition dquote : string := String (ascii_of_nat 34) EmptyString.
Definition attr_sel (prefix attr op value : string) : string :=
  prefix +:+ "[" +:+ attr +:+ op +:+ dquote +:+ value +:+ dquote +:+ "]".

Definition fallback_selectors : list string :=
  [ attr_sel EmptyString "class" "*=" "price";
    attr_sel EmptyString "id" "*=" "price";
    ".product-price";
    ".current-price";
    attr_sel "span" "itemprop" "=" "price";
    attr_sel "meta" "itemprop" "=" "price" ].

(** The loop [for selector in fallback_selectors: ...]; leaving the loop at
    its end is the [return None] that follows it. *)
Fixpoint try_fallbacks (soup : Soup) (selectors : list string)
    : outcome (option spec_float) :=
  match selectors with
  | [] => Return None
  | selector :: rest =>
      element ← soup selector;
      match element with
      | Some el =>
          if truthy_str (get_content el) then parse_price (get_content el)
          else
            price ← parse_price (Some (get_text el));
            if Float.truthy_opt price then Return price
            else try_fallbacks soup rest
      | None => try_fallbacks soup rest
      end
  end.

(** The body of the [try] of [fetch_price], from the parsed page on. *)
Definition extract_price (soup : Soup) (price_selector : string)
    : outcome (option spec_float) :=
  price_element ← soup price_selector;
  match price_element with
  | Some el => parse_price (Some (get_text el))
  | None => try_fallbacks soup fallback_selectors
  end.

Definition fetch_price (web : Web) (url price_selector : string)
    : outcome (option spec_float) :=
  try_except
    (soup ← web url; extract_price soup price_selector)
    [([RequestException], Return None);
     ([Exception], Return None)].

(** ** Targets, readings, snapshots *)

(** A JSON value where the program only looks at its truth value. *)
Inductive pyval : Type :=
| PyNone
| PyBool (b : bool)
| PyInt (z : Z)
| PyStr (s : string).

Definition truthy_val (v : pyval) : bool :=
  match v with
  | PyNone => false
  | PyBool b => b
  | PyInt z => negb (z =? 0)
  | PyStr s => negb (String.eqb s EmptyString)
  end.

(** One entry of ["cameras"] in [cameras.json].  The keys the program reads
    with [camera[...]] are plain fields, the keys it reads with
    [camera.get(..., default)] are optional. *)
Record target : Type := {
  t_id : string;
  t_name : string;
  t_model : string;
  t_category : string;
  t_url : string;
  t_retailer : option string;
  t_description : option string;
  t_price_selector : option string;
  t_enabled : option pyval
}.

(** [cameras.json]; the program reads [cameras_config.get("cameras", [])]. *)
Record config : Type := {
  config_cameras : option (list target)
}.

(** One reading: an entry of ["cameras"] in [prices.json]. *)
Record camera : Type := {
  cam_id : string;
  cam_name : string;
  cam_model : string;
  cam_category : string;
  cam_price : option spec_float;
  cam_retailer : string;
  cam_url : string;
  cam_description : string
}.

(** [prices.json]; the program reads [existing_data.get("cameras", [])]. *)
Record snapshot : Type := {
  last_updated : option string;
  cameras : option (list camera)
}.

Definition set_price (c : camera) (p : option spec_float) : camera :=
  {| cam_id := cam_id c; cam_name := cam_name c; cam_model := cam_model c;
     cam_category := cam_category c; cam_price := p;
     cam_retailer := cam_retailer c; cam_url := cam_url c;
     cam_description := cam_description c |}.

(** ** [scrape_all_cameras] *)

(** [camera.get("enabled", True)] is true. *)
Definition is_enabled (t : target) : bool :=
  truthy_val (default (PyBool true) (t_enabled t)).

(** The dictionary [result] built for one target. *)
Definition make_result (t : target) (price : option spec_float) : camera :=
  {| cam_id := t_id t; cam_name := t_name t; cam_model := t_model t;
     cam_category := t_category t; cam_price := price;
     cam_retailer := default "Unknown" (t_retailer t);
     cam_url := t_url t;
     cam_description := default EmptyString (t_description t) |}.

Fixpoint scrape_loop (web : Web) (targets : list target)
    : outcome (list camera) :=
  match targets with
  | [] => Return []
  | t :: rest =>
      if negb (is_enabled t) then scrape_loop web rest
      else
        price ← fetch_price web (t_url t)
                  (default ".price" (t_price_selector t));
        results ← scrape_loop web rest;
        mret (make_result t price :: results)
  end.

Definition scrape_all_cameras (web : Web) (cameras_config : config)
    : outcome (list camera) :=
  scrape_loop web (default [] (config_cameras cameras_config)).

(** ** [load_existing_prices] *)

(** [output_file] is what opening [prices.json] and [json.load] give: the
    document, or the exception raised on the way. *)
Definition load_existing_prices (output_file : outcome snapshot)
    : outcome snapshot :=
  try_except output_file
    [([FileNotFoundError; JSONDecodeError],
      Return {| last_updated := None; cameras := Some [] |})].

(** ** [merge_prices] *)

(** The dictionary comprehension [{c["id"]: c.get("price") for c in ...}]:
    entries are stored in list order, a later one replaces an earlier one
    with the same key. *)
Definition existing_prices_of (cs : list camera)
    : gmap string (option spec_float) :=
  foldl (λ m c, <[cam_id c := cam_price c]> m) ∅ cs.

(** One turn of [for camera in new_cameras]. *)
Definition merge_one (existing_prices : gmap string (option spec_float))
    (c : camera) : camera :=
  match cam_price c, existing_prices !! cam_id c with
  | None, Some p => set_price c p
  | _, _ => c
  end.

Definition merge_prices (new_cameras : list camera) (existing_data : snapshot)
    : list camera :=
  let existing_prices :=
    existing_prices_of (default [] (cameras existing_data)) in
  merge_one existing_prices <$> new_cameras.

(** ** [save_prices] and [main] *)

(** The document written to [prices.json]; [now] is
    [datetime.now(timezone.utc).isoformat()]. *)
Definition save_prices (now : string) (cs : list camera) : snapshot :=
  {| last_updated := Some now; cameras := Some cs |}.

(** One run.  [config_file] is what [load_camera_config] gives; the result is
    the document written. *)
Definition main (config_file : outcome config) (web : Web)
    (output_file : outcome snapshot) (now : string) : outcome snapshot :=
  cfg ← config_file;
  scraped ← scrape_all_cameras web cfg;
  existing ← load_existing_prices output_file;
  mret (save_prices now (merge_prices scraped existing)).

(** * Vocabulary of the properties *)

#[local] Arguments String.append !_ _ : simpl nomatch.

Fixpoint string_forall (p : ascii → bool) (s : string) : bool :=
  match s with
  | EmptyString => true
  | String c r => p c && string_forall p r
  end.

(** A string of decimal digits. *)
Definition digits (s : string) : Prop := string_forall is_digit s = true.

(** A string in which [re.sub] keeps nothing: no digit, no decimal point. *)
Definition no_price_char (s : string) : Prop :=
  string_forall (λ c, negb (is_price_char c)) s = true.

(** The number a string of digits denotes, by the weight of each position. *)
Fixpoint numeral_value (s : string) : Z :=
  match s with
  | EmptyString => 0
  | String c r => digit_value c * 10 ^ Z.of_nat (String.length r) + numeral_value r
  end.

(** [read_digits] stops at the end of the string or at the first character
    that is not a digit. *)
Definition no_leading_digit (s : string) : Prop :=
  match s with
  | EmptyString => True
  | String c _ => is_digit c = false
  end.

(** Without a digit there is no numeral. *)
Definition no_digit (s : string) : Prop :=
  string_forall (λ c, negb (is_digit c)) s = true.

(** The two [except] clauses of [fetch_price]. *)
Definition fetch_price_clauses : list (list exn * outcome (option spec_float)) :=
  [([RequestException], Return None); ([Exception], Return None)].

(** A page given by the selectors that match on it, each with the first
    element it matches; any other selector matches nothing. *)
Fixpoint select_in (matches : list (string * Element)) (selector : string)
    : option Element :=
  match matches with
  | [] => None
  | (s, el) :: rest =>
      if String.eqb s selector then Some el else select_in rest selector
  end.

Definition page (matches : list (string * Element)) : Soup :=
  λ selector, Return (select_in matches selector).

(** A network on which [url] serves [soup] and nothing else answers. *)
Definition serving (url : string) (soup : Soup) : Web :=
  λ u, if String.eqb u url then Return soup else Raise RequestException.

(** The specification's reading of the fallback search.  An element yields
    the price of its [content] attribute when it has one, of its text
    otherwise; the search returns the price of the first fallback selector
    whose element yields one, and goes on past every other. *)
Definition spec_element_price (el : Element) : option spec_float :=
  let source :=
    if truthy_str (get_content el) then get_content el
    else Some (get_text el) in
  match parse_price source with
  | Return p => p
  | Raise _ => None
  end.

Fixpoint spec_first_fallback (soup : Soup) (selectors : list string)
    : option spec_float :=
  match selectors with
  | [] => None
  | selector :: rest =>
      match soup selector with
      | Return (Some el) =>
          match spec_element_price el with
          | Some p => Some p
          | None => spec_first_fallback soup rest
          end
      | _ => spec_first_fallback soup rest
      end
  end.

(** The sentence of the specification on a primary selector that fails:
    whether it matches nothing or matches a text that does not parse, the
    result is the one the fallback loop gives. *)
Definition primary_failure_falls_back : Prop :=
  ∀ (web : Web) (url price_selector : string) (soup : Soup),
    web url = Return soup →
    (soup price_selector = Return None
     ∨ ∃ el, soup price_selector = Return (Some el)
             ∧ parse_price (Some (get_text el)) = Return None) →
    ∀ p, try_fallbacks soup fallback_selectors = Return p →
         fetch_price web url price_selector = Return p.

(** [<span class="price">Call for price</span>
     <meta itemprop="price" content="249.99">] *)
Definition page_call_for_price : Soup :=
  let span := {| get_text := "Call for price"; get_content := None |} in
  let meta := {| get_text := EmptyString; get_content := Some "249.99" |} in
  page [ (".price", span);
         (attr_sel EmptyString "class" "*=" "price", span);
         (attr_sel "meta" "itemprop" "=" "price", meta) ].

(** [<span class="price-currency" itemprop="priceCurrency" content="USD">$</span>
     <span itemprop="price" content="249.99">249.99</span>] *)
Definition page_currency_first : Soup :=
  let currency := {| get_text := "$"; get_content := Some "USD" |} in
  let amount := {| get_text := "249.99"; get_content := Some "249.99" |} in
  page [ (attr_sel EmptyString "class" "*=" "price", currency);
         (attr_sel "span" "itemprop" "=" "price", amount) ].

(** [<span class="price">$0.00</span>
     <span class="product-price">$5.00</span>] *)
Definition page_free_first : Soup :=
  let free := {| get_text := "$0.00"; get_content := None |} in
  let paid := {| get_text := "$5.00"; get_content := None |} in
  page [ (".price", free);
         (attr_sel EmptyString "class" "*=" "price", free);
         (".product-price", paid) ].

(** The readings of a snapshot. *)
Definition readings_of (existing_data : snapshot) : list camera :=
  default [] (cameras existing_data).

(** The reading a snapshot holds for an identifier; should it list the
    identifier more than once, the last one listed. *)
Definition prior_reading (prior : list camera) (i : string) : option camera :=
  last (filter (λ c, cam_id c = i) prior).

(** The price a snapshot holds for an identifier, when it holds one that is
    not null. *)
Definition prior_price (prior : list camera) (i : string)
    : option spec_float :=
  prior_reading prior i ≫= cam_price.

(** Every field but the price is the same. *)
Definition same_but_price (c c' : camera) : Prop :=
  cam_id c' = cam_id c ∧ cam_name c' = cam_name c
  ∧ cam_model c' = cam_model c ∧ cam_category c' = cam_category c
  ∧ cam_retailer c' = cam_retailer c ∧ cam_url c' = cam_url c
  ∧ cam_description c' = cam_description c.

(** A reading with the given identifier and price, for examples. *)
Definition reading (i : string) (p : option spec_float) : camera :=
  {| cam_id := i; cam_name := "Camera " +:+ i; cam_model := "M-" +:+ i;
     cam_category := "dome"; cam_price := p; cam_retailer := "Shop";
     cam_url := "https://shop.example/" +:+ i;
     cam_description := EmptyString |}.

(** 199.99 and 10.0 as binary64 numbers. *)
Definition price_199_99 : spec_float := Float.of_decimal 19999 2.
Definition price_10 : spec_float := Float.of_decimal 10 0.

(** The targets of a configuration. *)
Definition targets_of (cameras_config : config) : list target :=
  default [] (config_cameras cameras_config).

(** The price [fetch_price] returns for a target. *)
Definition fetched (web : Web) (t : target) : option spec_float :=
  match fetch_price web (t_url t) (default ".price" (t_price_selector t)) with
  | Return p => p
  | Raise _ => None
  end.

(** The reading is the one built from the target, whatever its price. *)
Definition built_from (t : target) (c : camera) : Prop :=
  c = make_result t (cam_price c).

(** A target for examples: [enabled] and [price_selector] as given. *)
Definition example_target (i : string) (enabled : option pyval)
    (selector : option string) : target :=
  {| t_id := i; t_name := "Camera " +:+ i; t_model := "M-" +:+ i;
     t_category := "dome"; t_url := "https://shop.example/" +:+ i;
     t_retailer := Some "Shop"; t_description := None;
     t_price_selector := selector; t_enabled := enabled |}.

(** [<span class="price">$249.99</span>] *)
Definition page_plain_price : Soup :=
  let span := {| get_text := "$249.99"; get_content := None |} in
  page [ (".price", span);
         (attr_sel EmptyString "class" "*=" "price", span) ].

(** ** Vocabulary of the further properties *)

(** How many characters of [s] satisfy [p]. *)
Fixpoint count_chars (p : ascii → bool) (s : string) : nat :=
  match s with
  | EmptyString => 0%nat
  | String c r => ((if p c then 1 else 0) + count_chars p r)%nat
  end.

Definition is_point (c : ascii) : bool := Ascii.eqb c "."%char.

(** A float that is zero, positive or plus infinity: not negative, not
    minus zero, not NaN. *)
Definition nonneg_float (f : spec_float) : bool :=
  match f with
  | S754_zero false | S754_infinity false | S754_finite false _ _ => true
  | _ => false
  end.

(** A fallback selector the loop of [fetch_price] goes past: it matches
    nothing, or it matches an element without a [content] attribute whose
    text gives no price or a price of zero. *)
Definition passed_over (soup : Soup) (selector : string) : Prop :=
  soup selector = Return None
  ∨ ∃ el, soup selector = Return (Some el)
          ∧ truthy_str (get_content el) = false
          ∧ ∃ p, parse_price (Some (get_text el)) = Return p
                 ∧ Float.truthy_opt p = false.

(** A network on which every request fails. *)
Definition offline : Web := λ _, Raise RequestException.

(** The price of the merged reading of a target: the one fetched, else the
    one the prior readings hold for its identifier. *)
Definition merged_price (fetched_price : option spec_float)
    (prior : list camera) (t : target) : option spec_float :=
  match fetched_price with
  | Some q => Some q
  | None => prior_price prior (t_id t)
  end.

(** The file [prices.json] as [load_existing_prices] finds it. *)
Inductive output_file_state : Type :=
| FileMissing
| FileNotUtf8
| FileNotJson
| FileDocument (d : snapshot).

(** [open(OUTPUT_FILE, "r", encoding="utf-8")] followed by [json.load(f)]:
    no file, bytes that are not UTF-8 text, text that is not a JSON
    document, or a document. *)
Definition open_and_load (f : output_file_state) : outcome snapshot :=
  match f with
  | FileMissing => Raise FileNotFoundError
  | FileNotUtf8 => Raise UnicodeDecodeError
  | FileNotJson => Raise JSONDecodeError
  | FileDocument d => Return d
  end.

(** The contents of the file fail to parse as JSON. *)
Definition fails_to_parse (f : output_file_state) : Prop :=
  f = FileNotUtf8 ∨ f = FileNotJson.

(** The sentence of the specification on a previous snapshot that is
    missing or does not parse: loading returns, and merging with what it
    returns leaves the fresh readings as they are. *)
Definition missing_or_unparsed_is_recovered : Prop :=
  ∀ f : output_file_state,
    f = FileMissing ∨ fails_to_parse f →
    ∃ existing_data,
      load_existing_prices (open_and_load f) = Return existing_data
      ∧ ∀ new_cameras : list camera,
          merge_prices new_cameras existing_data = new_cameras.

(** ** [fetch_price] and [scrape_all_cameras] on entries as they come, with
    the requests they send *)

Module Traced.

(** A computation that sends requests: it is given the urls requested so
    far and gives back those requested after it, whether it returns or
    raises. *)
Definition Net (A : Type) : Type := list string → outcome A * list string.

Definition ret {A} (a : A) : Net A := λ sent, (Return a, sent).

Definition lift {A} (c : outcome A) : Net A := λ sent, (c, sent).

Definition bind {A B} (c : Net A) (k : A → Net B) : Net B :=
  λ sent,
    match c sent with
    | (Return a, sent') => k a sent'
    | (Raise e, sent') => (Raise e, sent')
    end.

(** [try ... except] around a computation that sends requests; the handlers
    of the program send none. *)
Definition try_except {A} (body : Net A)
    (clauses : list (list exn * outcome A)) : Net A :=
  λ sent, let '(r, sent') := body sent in (Py.try_except r clauses, sent').

(** [requests.get(url, ...)], [raise_for_status()] and the parsing of the
    answer: the request is sent, then [web] says what comes of it. *)
Definition requests_get (web : Web) (url : string) : Net Soup :=
  λ sent, (web url, sent ++ [url]).

Definition fetch_price (web : Web) (url price_selector : string)
    : Net (option spec_float) :=
  try_except
    (bind (requests_get web url)
       (λ soup, lift (extract_price soup price_selector)))
    [([RequestException], Return None);
     ([Exception], Return None)].

(** One entry of ["cameras"] as it comes from [cameras.json]: any key may be
    missing. *)
Record entry : Type := {
  e_id : option string;
  e_name : option string;
  e_model : option string;
  e_category : option string;
  e_url : option string;
  e_retailer : option string;
  e_description : option string;
  e_price_selector : option string;
  e_enabled : option pyval
}.

(** [camera[key]] *)
Definition subscript {A} (value : option A) : outcome A :=
  match value with
  | Some a => Return a
  | None => Raise KeyError
  end.

(** [camera.get("enabled", True)] is true. *)
Definition entry_enabled (cam : entry) : bool :=
  truthy_val (default (PyBool true) (e_enabled cam)).

(** The dictionary [result] built for one entry. *)
Definition make_result (cam : entry) (price : option spec_float)
    : outcome camera :=
  i ← subscript (e_id cam);
  name ← subscript (e_name cam);
  model ← subscript (e_model cam);
  category ← subscript (e_category cam);
  url ← subscript (e_url cam);
  mret {| cam_id := i; cam_name := name; cam_model := model;
          cam_category := category; cam_price := price;
          cam_retailer := default "Unknown" (e_retailer cam);
          cam_url := url;
          cam_description := default EmptyString (e_description cam) |}.

(** The loop of [scrape_all_cameras].  Both messages printed at the head of
    a turn read [camera['name']]; [camera["url"]] is read before the
    request is sent, the other keys after it. *)
Fixpoint scrape_loop (web : Web) (entries : list entry) : Net (list camera) :=
  match entries with
  | [] => ret []
  | cam :: rest =>
      if negb (entry_enabled cam) then
        bind (lift (subscript (e_name cam))) (λ _,
        scrape_loop web rest)
      else
        bind (lift (subscript (e_name cam))) (λ _,
        bind (lift (subscript (e_url cam))) (λ url,
        bind (fetch_price web url
                (default ".price" (e_price_selector cam))) (λ price,
        bind (lift (make_result cam price)) (λ result,
        bind (scrape_loop web rest) (λ results,
        ret (result :: results))))))
  end.

(** [cameras_config.get("cameras", [])] and the loop. *)
Definition scrape_all_cameras (web : Web) (cameras : option (list entry))
    : Net (list camera) :=
  scrape_loop web (default [] cameras).

(** The entry of a target: every key the program reads with [camera[...]]
    is there. *)
Definition entry_of (t : target) : entry :=
  {| e_id := Some (t_id t); e_name := Some (t_name t);
     e_model := Some (t_model t); e_category := Some (t_category t);
     e_url := Some (t_url t); e_retailer := t_retailer t;
     e_description := t_description t;
     e_price_selector := t_price_selector t; e_enabled := t_enabled t |}.

(** The key is in the entry. *)
Definition present {A} (value : option A) : bool :=
  match value with
  | Some _ => true
  | None => false
  end.

(** An entry on which the loop raises no [KeyError]: it has a name, and if
    it is enabled a url, an identifier, a model and a category. *)
Definition well_shaped (cam : entry) : bool :=
  present (e_name cam)
  && (negb (entry_enabled cam)
      || (present (e_url cam) && present (e_id cam)
          && present (e_model cam) && present (e_category cam))).

End Traced.

(** The reading [c] is the one of the entry [cam], with the price
    [fetch_price] of the pure model returns for it. *)
Definition reading_of (web : Web) (cam : Traced.entry) (c : camera) : Prop :=
  Traced.e_id cam = Some (cam_id c) ∧ Traced.e_name cam = Some (cam_name c)
  ∧ Traced.e_model cam = Some (cam_model c)
  ∧ Traced.e_category cam = Some (cam_category c)
  ∧ Traced.e_url cam = Some (cam_url c)
  ∧ cam_retailer c = default "Unknown" (Traced.e_retailer cam)
  ∧ cam_description c = default EmptyString (Traced.e_description cam)
  ∧ fetch_price web (cam_url c)
      (default ".price" (Traced.e_price_selector cam))
    = Return (cam_price c).

(** An entry for examples, with the keys given and no other. *)
Definition example_entry (i name url : option string)
    (enabled : option pyval) : Traced.entry :=
  {| Traced.e_id := i; Traced.e_name := name; Traced.e_model := None;
     Traced.e_category := None; Traced.e_url := url;
     Traced.e_retailer := None; Traced.e_description := None;
     Traced.e_price_selector := None; Traced.e_enabled := enabled |}.

(** * Properties *)

(** ** Strings *)

Lemma string_app_assoc (a b c : string) : (a +:+ b) +:+ c = a +:+ b +:+ c.
Proof. induction a as [|x a IH]; simpl; [done | by rewrite IH]. Qed.

Lemma string_length_app (a b : string) :
  String.length (a +:+ b) = (String.length a + String.length b)%nat.
Proof. induction a as [|x a IH]; simpl; [done | by rewrite IH]. Qed.

Lemma string_forall_app p (a b : string) :
  string_forall p (a +:+ b) = string_forall p a && string_forall p b.
Proof.
  induction a as [|x a IH]; simpl; [done |].
  by rewrite IH, andb_assoc.
Qed.

Lemma digits_app (a b : string) : digits a → digits b → digits (a +:+ b).
Proof.
  unfold digits. intros Ha Hb. by rewrite string_forall_app, Ha, Hb.
Qed.

Lemma digit_is_price_char c : is_digit c = true → is_price_char c = true.
Proof. unfold is_price_char. by intros ->. Qed.

Lemma re_sub_app (a b : string) :
  re_sub_non_price (a +:+ b) = re_sub_non_price a +:+ re_sub_non_price b.
Proof.
  induction a as [|x a IH]; simpl; [done |].
  destruct (is_price_char x); simpl; by rewrite IH.
Qed.

Lemma re_sub_digits (d : string) : digits d → re_sub_non_price d = d.
Proof.
  unfold digits. induction d as [|x d IH]; simpl; [done |].
  intros [Hx Hd]%andb_true_iff.
  by rewrite (digit_is_price_char _ Hx), IH.
Qed.

Lemma re_sub_no_price_char (s : string) :
  no_price_char s → re_sub_non_price s = EmptyString.
Proof.
  unfold no_price_char. induction s as [|x s IH]; simpl; [done |].
  intros [Hx Hs]%andb_true_iff.
  apply negb_true_iff in Hx. rewrite Hx. auto.
Qed.

(** What [re.sub] returns has digits and decimal points only. *)
Lemma re_sub_price_chars (s : string) :
  string_forall is_price_char (re_sub_non_price s) = true.
Proof.
  induction s as [|x s IH]; simpl; [done |].
  destruct (is_price_char x) eqn:Hx; simpl; [by rewrite Hx | done].
Qed.

Lemma numeral_value_app (a b : string) :
  numeral_value (a +:+ b)
  = numeral_value a * 10 ^ Z.of_nat (String.length b) + numeral_value b.
Proof.
  induction a as [|x a IH]; simpl; [lia |].
  rewrite IH, string_length_app, Nat2Z.inj_add, Z.pow_add_r by lia.
  ring.
Qed.

Lemma read_digits_stop (s : string) acc n :
  no_leading_digit s → read_digits s acc n = (acc, n, s).
Proof. destruct s as [|c r]; simpl; [done | by intros ->]. Qed.

Lemma read_digits_app (d rest : string) acc n :
  digits d → no_leading_digit rest →
  read_digits (d +:+ rest) acc n
  = (acc * 10 ^ Z.of_nat (String.length d) + numeral_value d,
     (n + String.length d)%nat, rest).
Proof.
  unfold digits. intros Hd Hrest. revert acc n Hd.
  induction d as [|x d IH]; intros acc n Hd; simpl in *.
  - rewrite read_digits_stop by done. do 2 f_equal; [lia | lia].
  - apply andb_true_iff in Hd as [Hx Hd]. rewrite Hx, IH by done.
    do 2 f_equal.
    + rewrite Nat2Z.inj_succ, Z.pow_succ_r by lia. ring.
    + lia.
Qed.

(** ** [float] on numerals *)

Lemma string_length_pos (s : string) :
  s ≠ EmptyString → (String.length s =? 0)%nat = false.
Proof. destruct s; [done | intros _; reflexivity]. Qed.

Lemma string_app_empty_r (s : string) : s +:+ EmptyString = s.
Proof. induction s as [|x s IH]; simpl; [done | by rewrite IH]. Qed.

(** A numeral without a decimal point. *)
Lemma py_float_integer (d : string) :
  digits d → d ≠ EmptyString →
  py_float d = Return (Float.of_decimal (numeral_value d) 0).
Proof.
  intros Hd Hne. unfold py_float.
  rewrite <- (string_app_empty_r d) at 1.
  rewrite read_digits_app by done. simpl.
  by rewrite string_length_pos.
Qed.

(** A numeral with a decimal point: [i] before it, [f] after it. *)
Lemma py_float_decimal (i f : string) :
  digits i → digits f → i ≠ EmptyString →
  py_float (i +:+ "." +:+ f)
  = Return (Float.of_decimal
              (numeral_value i * 10 ^ Z.of_nat (String.length f)
               + numeral_value f)
              (String.length f)).
Proof.
  intros Hi Hf Hne. unfold py_float.
  rewrite read_digits_app by done. simpl.
  rewrite <- (string_app_empty_r f) at 1.
  rewrite read_digits_app by done. simpl.
  destruct (String.length i) eqn:Hlen; [by destruct i |].
  reflexivity.
Qed.

(** [float] raises nothing but [ValueError]. *)
Lemma py_float_raises (s : string) e : py_float s = Raise e → e = ValueError.
Proof.
  unfold py_float.
  destruct (read_digits s 0 0) as [[ip ni] r1].
  destruct r1 as [|c r2].
  - destruct (ni =? 0)%nat; congruence.
  - destruct (Ascii.eqb c "."); [| congruence].
    destruct (read_digits r2 ip 0) as [[m nf] r3].
    destruct r3; [| congruence].
    destruct (ni + nf =? 0)%nat; congruence.
Qed.

Lemma no_digit_no_leading (s : string) : no_digit s → no_leading_digit s.
Proof.
  destruct s as [|c r]; simpl; [done |].
  unfold no_digit; simpl. intros [Hc _]%andb_true_iff.
  by apply negb_true_iff.
Qed.

Lemma py_float_no_digit (s : string) :
  no_digit s → py_float s = Raise ValueError.
Proof.
  intros Hs. unfold py_float.
  rewrite read_digits_stop by by apply no_digit_no_leading.
  destruct s as [|c r2]; [done |].
  destruct (Ascii.eqb c "."); [| done].
  assert (no_digit r2) as Hr2.
  { unfold no_digit in *. simpl in Hs. by apply andb_true_iff in Hs as [_ ?]. }
  rewrite read_digits_stop by by apply no_digit_no_leading.
  by destruct r2.
Qed.

Lemma re_sub_no_digit (s : string) : no_digit s → no_digit (re_sub_non_price s).
Proof.
  unfold no_digit. induction s as [|x s IH]; simpl; [done |].
  intros [Hx Hs]%andb_true_iff.
  destruct (is_price_char x); simpl; [rewrite Hx |]; auto.
Qed.

Lemma no_price_char_no_digit (s : string) : no_price_char s → no_digit s.
Proof.
  unfold no_price_char, no_digit. induction s as [|x s IH]; simpl; [done |].
  intros [Hx Hs]%andb_true_iff. rewrite IH by done.
  unfold is_price_char in Hx. apply negb_true_iff, orb_false_iff in Hx as [-> _].
  done.
Qed.

(** ** [parse_price] *)

(** [parse_price] on a text that is not empty. *)
Lemma parse_price_cleaned (text : string) :
  text ≠ EmptyString →
  parse_price (Some text)
  = try_except (f ← py_float (re_sub_non_price text); mret (Some f))
      [([ValueError; TypeError], Return None)].
Proof. destruct text; [done | reflexivity]. Qed.

Lemma parse_price_value (text : string) f :
  text ≠ EmptyString →
  py_float (re_sub_non_price text) = Return f →
  parse_price (Some text) = Return (Some f).
Proof. intros Hne Hf. rewrite parse_price_cleaned by done. by rewrite Hf. Qed.

Lemma parse_price_no_value (text : string) :
  py_float (re_sub_non_price text) = Raise ValueError →
  parse_price (Some text) = Return None.
Proof.
  intros Hf. destruct text as [|c r]; [done |].
  rewrite parse_price_cleaned by done. by rewrite Hf.
Qed.

(** [parse_price] returns on every input: what [float] raises is caught. *)
Lemma parse_price_returns (price_text : option string) :
  ∃ r, parse_price price_text = Return r.
Proof.
  destruct price_text as [text|]; [| by exists None].
  destruct text as [|c r]; [by exists None |].
  rewrite parse_price_cleaned by done.
  destruct (py_float _) as [f|e] eqn:Hf; [by exists (Some f) |].
  apply py_float_raises in Hf as ->. by exists None.
Qed.

(** Digits that follow the price in the text run into it, and a second
    decimal point leaves no numeral. *)
Example parse_price_glued :
  parse_price (Some "$149.99 (25 reviews)")
  = Return (Some (Float.of_decimal 1499925 4))
  ∧ parse_price (Some "$149.99 - $199.99") = Return None
  ∧ parse_price (Some "v1.2.3") = Return None
  ∧ parse_price (Some ".") = Return None
  ∧ parse_price (Some "$.50") = Return (Some (Float.of_decimal 5 1))
  ∧ parse_price (Some "$0.00") = Return (Some (S754_zero false)).
Proof. repeat split; vm_compute; reflexivity. Qed.

Lemma string_app_ne_l (a b : string) : a ≠ EmptyString → a +:+ b ≠ EmptyString.
Proof. by destruct a. Qed.

Lemma string_app_ne_r (a b : string) : b ≠ EmptyString → a +:+ b ≠ EmptyString.
Proof. destruct a; [done | by simpl]. Qed.

(** A numeral between a prefix and a suffix that hold no digit and no
    decimal point, with separators of that kind between its digit groups. *)
Lemma parse_price_wrapped_integer (pre d suf : string) :
  no_price_char pre → no_price_char suf → digits d → d ≠ EmptyString →
  parse_price (Some (pre +:+ d +:+ suf))
  = Return (Some (Float.of_decimal (numeral_value d) 0)).
Proof.
  intros Hpre Hsuf Hd Hne.
  apply parse_price_value.
  { by apply string_app_ne_r, string_app_ne_l. }
  rewrite !re_sub_app, (re_sub_no_price_char pre), (re_sub_no_price_char suf),
    re_sub_digits by done.
  simpl. rewrite string_app_empty_r. by apply py_float_integer.
Qed.

Lemma parse_price_wrapped_decimal (pre i f suf : string) :
  no_price_char pre → no_price_char suf →
  digits i → digits f → i ≠ EmptyString →
  parse_price (Some (pre +:+ i +:+ "." +:+ f +:+ suf))
  = Return (Some (Float.of_decimal
                    (numeral_value i * 10 ^ Z.of_nat (String.length f)
                     + numeral_value f)
                    (String.length f))).
Proof.
  intros Hpre Hsuf Hi Hf Hne.
  apply parse_price_value.
  { by apply string_app_ne_r, string_app_ne_l. }
  rewrite !re_sub_app, (re_sub_no_price_char pre), (re_sub_no_price_char suf),
    (re_sub_digits i), (re_sub_digits f) by done.
  simpl. rewrite string_app_empty_r. by apply py_float_decimal.
Qed.

(** C5.  Price texts of the shapes [$D], [USD D], [D USD] and [$D,DDD.DD]
    parse to the number they show, exactly: the result is the binary64
    number nearest to the decimal value of the digits.  [D] is a run of
    digits (first part), or digits, a decimal point and digits (second
    part); in the fourth shape a comma separates a group of three digits
    and two digits follow the point (third part).  In particular
    ["$1,299.99"] parses to 1299.99, which is 5717416483970089 * 2^-42, and
    ["USD 149.99"] to 149.99, which is 5277303969603912 * 2^-45. *)
Theorem parse_price_shapes :
  (∀ d : string, digits d → d ≠ EmptyString →
     parse_price (Some ("$" +:+ d))
       = Return (Some (Float.of_decimal (numeral_value d) 0))
     ∧ parse_price (Some ("USD " +:+ d))
       = Return (Some (Float.of_decimal (numeral_value d) 0))
     ∧ parse_price (Some (d +:+ " USD"))
       = Return (Some (Float.of_decimal (numeral_value d) 0)))
  ∧ (∀ i f : string, digits i → i ≠ EmptyString → digits f →
     parse_price (Some ("$" +:+ i +:+ "." +:+ f))
       = Return (Some (Float.of_decimal
           (numeral_value i * 10 ^ Z.of_nat (String.length f)
            + numeral_value f) (String.length f)))
     ∧ parse_price (Some ("USD " +:+ i +:+ "." +:+ f))
       = Return (Some (Float.of_decimal
           (numeral_value i * 10 ^ Z.of_nat (String.length f)
            + numeral_value f) (String.length f)))
     ∧ parse_price (Some (i +:+ "." +:+ f +:+ " USD"))
       = Return (Some (Float.of_decimal
           (numeral_value i * 10 ^ Z.of_nat (String.length f)
            + numeral_value f) (String.length f))))
  ∧ (∀ d t c : string,
     digits d → d ≠ EmptyString →
     digits t → String.length t = 3%nat →
     digits c → String.length c = 2%nat →
     parse_price (Some ("$" +:+ d +:+ "," +:+ t +:+ "." +:+ c))
       = Return (Some (Float.of_decimal
           ((numeral_value d * 1000 + numeral_value t) * 100
            + numeral_value c) 2)))
  ∧ parse_price (Some "$1,299.99")
      = Return (Some (S754_finite false 5717416483970089 (-42)))
  ∧ parse_price (Some "USD 149.99")
      = Return (Some (S754_finite false 5277303969603912 (-45))).
Proof.
  split; [| split; [| split; [| split]]].
  - intros d Hd Hne. split; [| split].
    + rewrite <- (string_app_empty_r d) at 1.
      by apply (parse_price_wrapped_integer "$" d EmptyString).
    + rewrite <- (string_app_empty_r d) at 1.
      by apply (parse_price_wrapped_integer "USD " d EmptyString).
    + by apply (parse_price_wrapped_integer EmptyString d " USD").
  - intros i f Hi Hne Hf. split; [| split].
    + rewrite <- (string_app_empty_r f) at 1.
      by apply (parse_price_wrapped_decimal "$" i f EmptyString).
    + rewrite <- (string_app_empty_r f) at 1.
      by apply (parse_price_wrapped_decimal "USD " i f EmptyString).
    + by apply (parse_price_wrapped_decimal EmptyString i f " USD").
  - intros d t c Hd Hne Ht Hlt Hc Hlc.
    apply parse_price_value; [done |].
    change ("$" +:+ d +:+ "," +:+ t +:+ "." +:+ c)
      with ("$" +:+ (d +:+ "," +:+ (t +:+ "." +:+ c))).
    rewrite !re_sub_app, (re_sub_digits d), (re_sub_digits t),
      (re_sub_digits c) by done.
    simpl. rewrite <- string_app_assoc.
    change (String "." c) with ("." +:+ c).
    rewrite py_float_decimal;
      [| by apply digits_app | done | by apply string_app_ne_l].
    rewrite numeral_value_app, Hlt, Hlc. reflexivity.
  - vm_compute. reflexivity.
  - vm_compute. reflexivity.
Qed.

Lemma parse_price_shapes_witness :
  parse_price (Some "$249")
    = Return (Some (Float.of_decimal 249 0))
  ∧ parse_price (Some "149.99 USD")
    = Return (Some (Float.of_decimal 14999 2))
  ∧ parse_price (Some "$12,345.67")
    = Return (Some (Float.of_decimal 1234567 2)).
Proof.
  destruct parse_price_shapes as (Hint & Hdec & Hgroup & _).
  split; [| split].
  - apply (Hint "249"); [reflexivity | discriminate].
  - apply (Hdec "149" "99"); [reflexivity | discriminate | reflexivity].
  - apply (Hgroup "12" "345" "67");
      [reflexivity | discriminate | reflexivity | reflexivity
      | reflexivity | reflexivity].
Defined.

(** C6.  A text that is null, empty, or holds no digit and no decimal point
    parses to absent; so does every text that holds no digit at all.
    [parse_price] raises on no input whatever: it always returns. *)
Theorem parse_price_absent :
  parse_price None = Return None
  ∧ parse_price (Some EmptyString) = Return None
  ∧ (∀ text : string, no_price_char text →
       parse_price (Some text) = Return None)
  ∧ (∀ text : string, no_digit text → parse_price (Some text) = Return None)
  ∧ (∀ price_text : option string, ∃ r, parse_price price_text = Return r).
Proof.
  assert (∀ text, no_digit text → parse_price (Some text) = Return None) as H.
  { intros text Htext. apply parse_price_no_value, py_float_no_digit.
    by apply re_sub_no_digit. }
  split; [reflexivity |]. split; [reflexivity |].
  split; [| split; [exact H | apply parse_price_returns]].
  intros text Htext. by apply H, no_price_char_no_digit.
Qed.

Lemma parse_price_absent_witness :
  parse_price (Some "Call for price") = Return None
  ∧ parse_price (Some "N.A.") = Return None.
Proof.
  destruct parse_price_absent as (_ & _ & Hnone & Hnodigit & _).
  split.
  - apply (Hnone "Call for price"). reflexivity.
  - apply (Hnodigit "N.A."). reflexivity.
Defined.

(** ** [fetch_price] *)

Lemma issubclass_Exception e : issubclass e Exception = true.
Proof. by destruct e. Qed.

Lemma try_except_Return {A} (a : A) clauses :
  try_except (Return a) clauses = Return a.
Proof. reflexivity. Qed.

(** [fetch_price] catches whatever is raised: it always returns. *)
Lemma fetch_price_returns (web : Web) (url price_selector : string) :
  ∃ r, fetch_price web url price_selector = Return r.
Proof.
  unfold fetch_price.
  destruct (_ ≫= _) as [r|e]; [by exists r |].
  exists None. simpl.
  destruct (issubclass e RequestException); [done |].
  simpl. by rewrite issubclass_Exception.
Qed.

Lemma fetch_price_raise (web : Web) (url price_selector : string) e :
  web url = Raise e → fetch_price web url price_selector = Return None.
Proof.
  intros Hweb. unfold fetch_price. rewrite Hweb. simpl.
  destruct (issubclass e RequestException); [done |].
  simpl. by rewrite issubclass_Exception.
Qed.

Lemma fetch_price_page (web : Web) (url price_selector : string) soup :
  web url = Return soup →
  fetch_price web url price_selector
  = try_except (extract_price soup price_selector) fetch_price_clauses.
Proof. intros Hweb. unfold fetch_price. by rewrite Hweb. Qed.

(** C1, as the code has it.  On a fetched page, when the primary selector
    matches no element the result is the one the loop over the fallback
    selectors gives; when it matches an element the result is the parse of
    that element's text and nothing else: a text that does not parse gives
    "not found" at once, the fallback selectors are not consulted. *)
Theorem fetch_price_primary :
  ∀ (web : Web) (url price_selector : string) (soup : Soup),
    web url = Return soup →
    (soup price_selector = Return None →
       ∀ p, try_fallbacks soup fallback_selectors = Return p →
            fetch_price web url price_selector = Return p)
    ∧ (∀ el, soup price_selector = Return (Some el) →
         fetch_price web url price_selector
           = parse_price (Some (get_text el))
         ∧ (parse_price (Some (get_text el)) = Return None →
              fetch_price web url price_selector = Return None)).
Proof.
  intros web url sel soup Hweb.
  rewrite (fetch_price_page _ _ _ _ Hweb). unfold extract_price.
  split.
  - intros -> p Hp.
    change (try_except (try_fallbacks soup fallback_selectors)
              fetch_price_clauses = Return p).
    by rewrite Hp.
  - intros el ->.
    change (try_except (parse_price (Some (get_text el))) fetch_price_clauses
            = parse_price (Some (get_text el))
            ∧ (parse_price (Some (get_text el)) = Return None →
               try_except (parse_price (Some (get_text el)))
                 fetch_price_clauses = Return None)).
    destruct (parse_price_returns (Some (get_text el))) as [r Hr].
    rewrite Hr. split; [done |]. by intros [= ->].
Qed.

Lemma fetch_price_primary_witness :
  fetch_price (serving "https://shop.example/cam" page_plain_price)
    "https://shop.example/cam" ".sale-price"
  = Return (Some (Float.of_decimal 24999 2))
  ∧ fetch_price (serving "https://shop.example/cam" page_call_for_price)
      "https://shop.example/cam" ".price" = Return None.
Proof.
  split.
  - destruct (fetch_price_primary
                (serving "https://shop.example/cam" page_plain_price)
                "https://shop.example/cam" ".sale-price" page_plain_price
                eq_refl) as [Hnone _].
    apply (Hnone eq_refl). reflexivity.
  - destruct (fetch_price_primary
                (serving "https://shop.example/cam" page_call_for_price)
                "https://shop.example/cam" ".price" page_call_for_price
                eq_refl) as [_ Hmatch].
    destruct (Hmatch _ eq_refl) as [_ Hunparsed].
    apply Hunparsed. reflexivity.
Defined.

(** C1, as the specification words it, fails: on [page_call_for_price] the
    primary selector [.price] matches a text that does not parse, the
    fallback loop would find 249.99 in the [meta] element, and [fetch_price]
    returns "not found". *)
Lemma primary_failure_falls_back_fails : ¬ primary_failure_falls_back.
Proof.
  intros H.
  specialize (H (serving "https://shop.example/cam" page_call_for_price)
                "https://shop.example/cam" ".price" page_call_for_price
                eq_refl).
  specialize (H (or_intror (ex_intro _ _ (conj eq_refl eq_refl)))
                (Some (Float.of_decimal 24999 2)) eq_refl).
  vm_compute in H. discriminate H.
Qed.

(** The fallback loop and the specification's search agree on every page
    where no fallback selector raises, every [content] attribute the loop
    reads holds a price, and no text it reads is a price of zero. *)
Lemma try_fallbacks_spec (soup : Soup) (selectors : list string) :
  (∀ s, s ∈ selectors → ∃ r, soup s = Return r) →
  (∀ s el, s ∈ selectors → soup s = Return (Some el) →
     truthy_str (get_content el) = true →
     ∃ p, parse_price (get_content el) = Return (Some p)) →
  (∀ s el p, s ∈ selectors → soup s = Return (Some el) →
     truthy_str (get_content el) = false →
     parse_price (Some (get_text el)) = Return (Some p) →
     Float.truthy p = true) →
  try_fallbacks soup selectors
  = Return (spec_first_fallback soup selectors).
Proof.
  induction selectors as [|s rest IH]; intros Hret Hcontent Htext; [done |].
  assert (try_fallbacks soup rest = Return (spec_first_fallback soup rest))
    as IH'.
  { apply IH.
    - intros s' Hs'. apply Hret. by right.
    - intros s' el Hs'. apply Hcontent. by right.
    - intros s' el p Hs'. apply (Htext s' el p). by right. }
  destruct (Hret s) as [r Hr]; [by left |].
  simpl. rewrite Hr. simpl.
  destruct r as [el|]; [| exact IH'].
  unfold spec_element_price.
  destruct (truthy_str (get_content el)) eqn:Hc.
  - destruct (Hcontent s el) as [p Hp]; [by left | done | done |].
    by rewrite Hp.
  - destruct (parse_price_returns (Some (get_text el))) as [[p|] Hp];
      rewrite Hp; simpl; [| exact IH'].
    rewrite (Htext s el p); [done | by left | done | done | done].
Qed.

(** C2 at a page the code can receive.  On [page_currency_first] the primary
    selector [.price] matches nothing; the first fallback selector matches
    the currency element, whose [content] attribute is ["USD"]; the loop
    returns "not found" there and then, though the fifth fallback selector
    matches an element that yields 249.99. *)
Theorem fallback_content_stops_search :
  page_currency_first ".price" = Return None
  ∧ try_fallbacks page_currency_first fallback_selectors = Return None
  ∧ fetch_price (serving "https://shop.example/cam" page_currency_first)
      "https://shop.example/cam" ".price" = Return None
  ∧ spec_first_fallback page_currency_first fallback_selectors
    = Some (S754_finite false 8795741178487112 (-45)).
Proof. repeat split; vm_compute; reflexivity. Qed.

(** The loop also goes past a text that parses to zero, [if price:] being
    false for 0.0. *)
Example fallback_zero_passed_over :
  try_fallbacks page_free_first fallback_selectors
  = Return (Some (Float.of_decimal 5 0))
  ∧ spec_first_fallback page_free_first fallback_selectors
    = Some (S754_zero false).
Proof. split; vm_compute; reflexivity. Qed.

(** ** [merge_prices] *)

Lemma existing_prices_snoc (cs : list camera) (c : camera) :
  existing_prices_of (cs ++ [c])
  = <[cam_id c := cam_price c]> (existing_prices_of cs).
Proof. unfold existing_prices_of. by rewrite foldl_app. Qed.

(** The dictionary of [merge_prices] holds, for each identifier, the price
    of the last reading listed with it. *)
Lemma existing_prices_lookup (cs : list camera) (i : string) :
  existing_prices_of cs !! i = cam_price <$> prior_reading cs i.
Proof.
  unfold prior_reading.
  induction cs as [|c cs IH] using rev_ind; [done |].
  rewrite existing_prices_snoc, filter_app, lookup_insert.
  rewrite filter_cons, filter_nil.
  destruct (decide (cam_id c = i)) as [Heq|Hne].
  - by rewrite last_snoc.
  - by rewrite app_nil_r.
Qed.

Lemma prior_reading_elem (prior : list camera) (i : string) (e : camera) :
  prior_reading prior i = Some e → e ∈ prior ∧ cam_id e = i.
Proof.
  unfold prior_reading. intros Hlast.
  apply last_Some in Hlast as [l' Hl'].
  assert (e ∈ filter (λ c, cam_id c = i) prior) as He.
  { rewrite Hl'. apply elem_of_app. right. by left. }
  apply list_elem_of_filter in He as [? ?]. by split.
Qed.

Lemma prior_reading_None (prior : list camera) (i : string) :
  prior_reading prior i = None → ∀ e, e ∈ prior → cam_id e ≠ i.
Proof.
  unfold prior_reading. intros Hlast e He Hid.
  apply last_None in Hlast.
  assert (e ∈ filter (λ c, cam_id c = i) prior) as Hin.
  { by apply list_elem_of_filter. }
  rewrite Hlast in Hin. by apply not_elem_of_nil in Hin.
Qed.

(** With identifiers that are pairwise distinct, the reading held for an
    identifier is the one reading that carries it. *)
Lemma prior_reading_unique (prior : list camera) (e : camera) :
  NoDup (cam_id <$> prior) → e ∈ prior →
  prior_reading prior (cam_id e) = Some e.
Proof.
  unfold prior_reading.
  induction prior as [|x prior IH]; intros Hnd He.
  { by apply not_elem_of_nil in He. }
  rewrite fmap_cons in Hnd. apply NoDup_cons in Hnd as [Hx Hnd].
  rewrite filter_cons.
  apply elem_of_cons in He as [-> | He].
  - rewrite decide_True by done.
    assert (filter (λ c, cam_id c = cam_id x) prior = []) as ->; [| done].
    apply elem_of_nil_inv. intros c [Hid Hc]%list_elem_of_filter. apply Hx.
    rewrite <- Hid. by apply list_elem_of_fmap_2.
  - rewrite decide_False.
    + by apply IH.
    + intros Hid. apply Hx. rewrite Hid. by apply list_elem_of_fmap_2.
Qed.

Lemma set_price_same (c : camera) : set_price c (cam_price c) = c.
Proof. by destruct c. Qed.

Lemma merge_one_price (prior : list camera) (c : camera) :
  cam_price (merge_one (existing_prices_of prior) c)
  = match cam_price c with
    | Some p => Some p
    | None => prior_price prior (cam_id c)
    end.
Proof.
  unfold merge_one, prior_price. rewrite existing_prices_lookup.
  destruct (cam_price c) as [p|] eqn:Hc; [by rewrite Hc |].
  destruct (prior_reading prior (cam_id c)) as [e|]; simpl; [done |].
  by rewrite Hc.
Qed.

Lemma merge_one_frame (m : gmap string (option spec_float)) (c : camera) :
  same_but_price c (merge_one m c).
Proof.
  unfold merge_one, same_but_price.
  destruct (cam_price c), (m !! cam_id c); simpl; tauto.
Qed.

Lemma merge_prices_lookup (new_cameras : list camera) existing_data k :
  merge_prices new_cameras existing_data !! k
  = merge_one (existing_prices_of (readings_of existing_data))
      <$> new_cameras !! k.
Proof. unfold merge_prices. by rewrite list_lookup_fmap. Qed.

(** Without prior readings nothing changes. *)
Lemma merge_prices_no_prior (new_cameras : list camera) existing_data :
  readings_of existing_data = [] →
  merge_prices new_cameras existing_data = new_cameras.
Proof.
  unfold merge_prices, readings_of. intros ->.
  induction new_cameras as [|c cs IH]; [done |].
  rewrite fmap_cons, IH. f_equal.
  unfold merge_one, existing_prices_of. simpl.
  rewrite lookup_empty. by destruct (cam_price c).
Qed.

(** C3.  For every list of fresh readings and every prior snapshot, the
    reading at each position of the merge carries: the fresh price when
    there is one; otherwise the price the prior snapshot holds for the same
    identifier when that price is not null (that of the last prior reading
    listed with the identifier); otherwise absent.  So the price stays as
    fetched whenever no prior reading with the identifier has a price, and
    with prior identifiers that are pairwise distinct the price of any prior
    reading with the identifier replaces an absent one. *)
Theorem merge_prices_rule :
  ∀ (new_cameras : list camera) (existing_data : snapshot)
    (k : nat) (c : camera),
    new_cameras !! k = Some c →
    ∃ c', merge_prices new_cameras existing_data !! k = Some c'
      ∧ cam_price c'
        = match cam_price c with
          | Some p => Some p
          | None => prior_price (readings_of existing_data) (cam_id c)
          end
      ∧ (cam_price c ≠ None → cam_price c' = cam_price c)
      ∧ ((∀ e, e ∈ readings_of existing_data → cam_id e = cam_id c →
               cam_price e = None) →
         cam_price c' = cam_price c)
      ∧ (NoDup (cam_id <$> readings_of existing_data) →
         ∀ e p, e ∈ readings_of existing_data → cam_id e = cam_id c →
                cam_price e = Some p → cam_price c = None →
                cam_price c' = Some p).
Proof.
  intros new_cameras existing_data k c Hk.
  exists (merge_one (existing_prices_of (readings_of existing_data)) c).
  rewrite merge_prices_lookup, Hk, merge_one_price.
  split; [done |]. split; [done |]. split; [| split].
  - intros Hc. by destruct (cam_price c).
  - intros Hnone. destruct (cam_price c) as [p|]; [done |].
    unfold prior_price.
    destruct (prior_reading _ _) as [e|] eqn:He; [| done].
    apply prior_reading_elem in He as [He Hid]. simpl. by apply Hnone.
  - intros Hnd e p He Hid Hp ->.
    unfold prior_price. rewrite <- Hid, (prior_reading_unique _ e) by done.
    done.
Qed.

Lemma merge_prices_rule_witness :
  ∃ c', merge_prices [reading "cam-1" None; reading "cam-2" None]
          {| last_updated := None;
             cameras := Some [reading "cam-1" (Some price_199_99)] |} !! 0%nat
        = Some c'
      ∧ cam_price c' = Some price_199_99.
Proof.
  destruct (merge_prices_rule
              [reading "cam-1" None; reading "cam-2" None]
              {| last_updated := None;
                 cameras := Some [reading "cam-1" (Some price_199_99)] |}
              0%nat (reading "cam-1" None) eq_refl)
    as (c' & Hc' & _ & _ & _ & Hsub).
  exists c'. split; [exact Hc' |].
  apply (Hsub ltac:(compute_done) (reading "cam-1" (Some price_199_99)));
    [by left | reflexivity | reflexivity | reflexivity].
Defined.

Lemma load_existing_prices_caught (output_file : outcome snapshot) :
  output_file = Raise FileNotFoundError
  ∨ output_file = Raise JSONDecodeError →
  load_existing_prices output_file
  = Return {| last_updated := None; cameras := Some [] |}.
Proof. by intros [-> | ->]. Qed.

(** C4, as the code has it.  When the snapshot file is missing, or holds
    text that is not a JSON document, [load_existing_prices] returns, and
    what it returns leaves every list of fresh readings as it is under
    [merge_prices]: every reading with an absent price stays absent. *)
Theorem load_existing_prices_recovers :
  ∀ f : output_file_state,
    f = FileMissing ∨ f = FileNotJson →
    ∃ existing_data,
      load_existing_prices (open_and_load f) = Return existing_data
      ∧ ∀ new_cameras : list camera,
          merge_prices new_cameras existing_data = new_cameras
          ∧ ∀ k c, new_cameras !! k = Some c → cam_price c = None →
              ∃ c', merge_prices new_cameras existing_data !! k = Some c'
                    ∧ cam_price c' = None.
Proof.
  intros f Hf.
  exists {| last_updated := None; cameras := Some [] |}.
  split.
  { apply load_existing_prices_caught. destruct Hf as [-> | ->]; auto. }
  intros new_cameras.
  assert (merge_prices new_cameras
            {| last_updated := None; cameras := Some [] |} = new_cameras)
    as Hsame by by apply merge_prices_no_prior.
  split; [done |].
  intros k c Hk Hc. exists c. by rewrite Hsame.
Qed.

Lemma load_existing_prices_recovers_witness :
  ∃ existing_data,
    load_existing_prices (open_and_load FileNotJson) = Return existing_data
    ∧ merge_prices [reading "cam-1" None] existing_data
      = [reading "cam-1" None].
Proof.
  destruct (load_existing_prices_recovers FileNotJson (or_intror eq_refl))
    as (existing_data & Hload & Hmerge).
  exists existing_data. split; [exact Hload |].
  apply (Hmerge [reading "cam-1" None]).
Defined.

(** C4, as the specification words it, fails: a file whose bytes are not
    UTF-8 text does not parse as JSON either, reading it raises
    [UnicodeDecodeError], and [load_existing_prices] catches
    [FileNotFoundError] and [JSONDecodeError] only. *)
Lemma missing_or_unparsed_is_recovered_fails :
  ¬ missing_or_unparsed_is_recovered.
Proof.
  intros H.
  destruct (H FileNotUtf8 (or_intror (or_introl eq_refl)))
    as (existing_data & Hload & _).
  discriminate Hload.
Qed.

(** Another failure of the read is not caught. *)
Lemma load_existing_prices_other_error :
  load_existing_prices (Raise PermissionError) = Raise PermissionError
  ∧ load_existing_prices (Raise UnicodeDecodeError) = Raise UnicodeDecodeError.
Proof. split; reflexivity. Qed.

(** C7, with identifiers that are pairwise distinct.  Merging a list of
    readings with the snapshot that holds those same readings gives the list
    back: every price, and every other field, is unchanged. *)
Theorem merge_prices_idempotent :
  ∀ (readings : list camera) (stamp : option string),
    NoDup (cam_id <$> readings) →
    merge_prices readings {| last_updated := stamp; cameras := Some readings |}
    = readings.
Proof.
  intros readings stamp Hnd. unfold merge_prices. simpl.
  rewrite <- (list_fmap_id readings) at 3.
  apply list_fmap_ext. intros k c Hk. simpl.
  unfold merge_one. rewrite existing_prices_lookup.
  rewrite (prior_reading_unique readings c Hnd)
    by by eapply list_elem_of_lookup_2.
  destruct (cam_price c) eqn:Hc; simpl; [done |].
  rewrite Hc. rewrite <- Hc. apply set_price_same.
Qed.

Lemma merge_prices_idempotent_witness :
  merge_prices
    [reading "cam-1" (Some price_199_99); reading "cam-2" None]
    {| last_updated := None;
       cameras := Some [reading "cam-1" (Some price_199_99);
                        reading "cam-2" None] |}
  = [reading "cam-1" (Some price_199_99); reading "cam-2" None].
Proof.
  apply (merge_prices_idempotent
           [reading "cam-1" (Some price_199_99); reading "cam-2" None] None).
  compute_done.
Defined.

(** C7 for every list fails: when two readings share an identifier and the
    first has no price, merging the list with itself gives the first reading
    the price of the second. *)
Lemma merge_prices_self_duplicate :
  cam_price <$>
    merge_prices [reading "cam-1" None; reading "cam-1" (Some price_10)]
      {| last_updated := None;
         cameras := Some [reading "cam-1" None;
                          reading "cam-1" (Some price_10)] |}
  = [Some price_10; Some price_10]
  ∧ cam_price <$> [reading "cam-1" None; reading "cam-1" (Some price_10)]
    = [None; Some price_10]
  ∧ cam_price <$>
      merge_prices [reading "cam-1" None; reading "cam-1" (Some price_10)]
        {| last_updated := None;
           cameras := Some [reading "cam-1" None;
                            reading "cam-1" (Some price_10)] |}
    ≠ cam_price <$> [reading "cam-1" None; reading "cam-1" (Some price_10)].
Proof.
  assert (cam_price <$>
    merge_prices [reading "cam-1" None; reading "cam-1" (Some price_10)]
      {| last_updated := None;
         cameras := Some [reading "cam-1" None;
                          reading "cam-1" (Some price_10)] |}
    = [Some price_10; Some price_10]) as H by (vm_compute; reflexivity).
  split; [exact H |]. split; [reflexivity |].
  rewrite H. discriminate.
Qed.

Lemma merge_prices_frame (new_cameras : list camera) existing_data :
  Forall2 same_but_price new_cameras (merge_prices new_cameras existing_data).
Proof.
  unfold merge_prices.
  apply Forall2_fmap_r, Forall_Forall2_diag, Forall_forall.
  intros c _. apply merge_one_frame.
Qed.

(** ** [scrape_all_cameras] and [main] *)

Lemma fetched_eq (web : Web) (t : target) :
  fetch_price web (t_url t) (default ".price" (t_price_selector t))
  = Return (fetched web t).
Proof.
  unfold fetched.
  by destruct (fetch_price_returns web (t_url t)
                 (default ".price" (t_price_selector t))) as [r ->].
Qed.

(** The loop of [scrape_all_cameras] returns one reading for each enabled
    target, in the order of the configuration. *)
Lemma scrape_loop_eq (web : Web) (targets : list target) :
  scrape_loop web targets
  = Return ((λ t, make_result t (fetched web t))
              <$> filter (λ t, is_enabled t = true) targets).
Proof.
  induction targets as [|t rest IH]; [done |].
  simpl. rewrite filter_cons.
  destruct (is_enabled t) eqn:Ht; simpl.
  - rewrite fetched_eq, IH. reflexivity.
  - exact IH.
Qed.

Lemma scrape_all_cameras_eq (web : Web) (cameras_config : config) :
  scrape_all_cameras web cameras_config
  = Return ((λ t, make_result t (fetched web t))
              <$> filter (λ t, is_enabled t = true) (targets_of cameras_config)).
Proof. apply scrape_loop_eq. Qed.

Lemma main_eq (web : Web) (cameras_config : config) output_file existing now :
  load_existing_prices output_file = Return existing →
  main (Return cameras_config) web output_file now
  = Return (save_prices now
      (merge_prices
         ((λ t, make_result t (fetched web t))
            <$> filter (λ t, is_enabled t = true) (targets_of cameras_config))
         existing)).
Proof.
  intros Hload. unfold main. simpl.
  rewrite scrape_all_cameras_eq. simpl. by rewrite Hload.
Qed.

(** On a snapshot file that is not UTF-8 text the run stops with the
    exception. *)
Example main_not_utf8 :
  load_existing_prices (open_and_load FileNotUtf8) = Raise UnicodeDecodeError
  ∧ ∀ cfg web now,
      main (Return cfg) web (open_and_load FileNotUtf8) now
      = Raise UnicodeDecodeError.
Proof.
  split; [reflexivity |]. intros cfg web now. unfold main. simpl.
  by rewrite scrape_all_cameras_eq.
Qed.

Lemma same_but_price_built (t : target) (p : option spec_float) (c : camera) :
  same_but_price (make_result t p) c → built_from t c.
Proof.
  unfold same_but_price, built_from. destruct c; simpl.
  intros (-> & -> & -> & -> & -> & -> & ->). reflexivity.
Qed.

(** C8.  Merging changes the price of a reading and nothing else: position
    by position, identifier, name, model, category, retailer, url and
    description of the merged reading are those of the fresh one.  The fresh
    readings are built from the enabled targets of the configuration, so the
    merged ones are too, whatever the prior snapshot holds. *)
Theorem merge_changes_price_only :
  ∀ (web : Web) (cameras_config : config) (existing_data : snapshot),
    (∀ new_cameras : list camera,
       Forall2 same_but_price new_cameras
         (merge_prices new_cameras existing_data))
    ∧ ∃ scraped,
        scrape_all_cameras web cameras_config = Return scraped
        ∧ Forall2 built_from
            (filter (λ t, is_enabled t = true) (targets_of cameras_config))
            (merge_prices scraped existing_data).
Proof.
  intros web cameras_config existing_data.
  split; [intros; apply merge_prices_frame |].
  eexists. split; [apply scrape_all_cameras_eq |].
  set (ts := filter _ _). clearbody ts.
  unfold merge_prices. rewrite <- list_fmap_compose.
  apply Forall2_fmap_r, Forall_Forall2_diag, Forall_forall.
  intros t _. simpl.
  apply (same_but_price_built t (fetched web t)), merge_one_frame.
Qed.

Lemma merge_prices_ids (new_cameras : list camera) existing_data :
  cam_id <$> merge_prices new_cameras existing_data = cam_id <$> new_cameras.
Proof.
  unfold merge_prices. rewrite <- list_fmap_compose.
  apply list_fmap_ext. intros k c _. simpl.
  by destruct (merge_one_frame
                 (existing_prices_of (default [] (cameras existing_data))) c)
    as [-> _].
Qed.

Lemma filter_enabled_disabled (before after : list target) (t : target) :
  is_enabled t = false →
  filter (λ t', is_enabled t' = true) (before ++ t :: after)
  = filter (λ t', is_enabled t' = true) (before ++ after).
Proof.
  intros Ht. rewrite !filter_app, filter_cons, decide_False; [done |].
  by rewrite Ht.
Qed.

(** An enabled target of the configuration has its reading in what is
    scraped and in what is merged. *)
Lemma enabled_target_scraped (web : Web) (cameras_config : config)
    (existing_data : snapshot) (t : target) :
  t ∈ targets_of cameras_config → is_enabled t = true →
  ∃ scraped,
    scrape_all_cameras web cameras_config = Return scraped
    ∧ make_result t (fetched web t) ∈ scraped
    ∧ ∃ c, c ∈ merge_prices scraped existing_data
           ∧ built_from t c
           ∧ cam_price c
             = match fetched web t with
               | Some q => Some q
               | None => prior_price (readings_of existing_data) (t_id t)
               end.
Proof.
  intros Ht Hen. eexists. split; [apply scrape_all_cameras_eq |].
  assert (make_result t (fetched web t)
            ∈ (λ t, make_result t (fetched web t))
                <$> filter (λ t, is_enabled t = true)
                      (targets_of cameras_config)) as Hin.
  { apply (list_elem_of_fmap_2 (λ t, make_result t (fetched web t))).
    by apply list_elem_of_filter. }
  split; [exact Hin |].
  exists (merge_one (existing_prices_of (readings_of existing_data))
            (make_result t (fetched web t))).
  split; [| split].
  - unfold merge_prices.
    by apply (list_elem_of_fmap_2
                (merge_one (existing_prices_of (readings_of existing_data)))).
  - apply (same_but_price_built t (fetched web t)), merge_one_frame.
  - by rewrite merge_one_price.
Qed.

(** C9.  A target that is not enabled (its flag is false, or null, zero or
    an empty string) produces no reading: the run writes the snapshot it
    would write without the target in the configuration, the readings of the
    snapshot are those of the enabled targets in order, and no reading
    carries the identifier of the target unless an enabled target has the
    same identifier.  This holds whatever the prior snapshot holds. *)
Theorem disabled_target_pruned :
  ∀ (web : Web) (before after : list target) (t : target)
    (output_file : outcome snapshot) (existing_data : snapshot)
    (now : string),
    is_enabled t = false →
    load_existing_prices output_file = Return existing_data →
    ∃ produced,
      main (Return {| config_cameras := Some (before ++ t :: after) |})
        web output_file now
      = Return (save_prices now produced)
      ∧ main (Return {| config_cameras := Some (before ++ after) |})
          web output_file now
        = Return (save_prices now produced)
      ∧ cam_id <$> produced
        = t_id <$> filter (λ t', is_enabled t' = true) (before ++ after)
      ∧ ((∀ t', t' ∈ before ++ after → t_id t' = t_id t →
                is_enabled t' = false) →
         t_id t ∉ cam_id <$> produced).
Proof.
  intros web before after t output_file existing_data now Ht Hload.
  eexists. split; [| split; [| split]].
  - rewrite (main_eq _ _ _ _ _ Hload). unfold targets_of. simpl.
    rewrite filter_enabled_disabled by done. reflexivity.
  - by rewrite (main_eq _ _ _ _ _ Hload).
  - rewrite merge_prices_ids, <- list_fmap_compose. reflexivity.
  - intros Hothers.
    rewrite merge_prices_ids, <- list_fmap_compose.
    intros (t' & Hid & [Hen Hin]%list_elem_of_filter)%list_elem_of_fmap_1.
    simpl in Hid. rewrite (Hothers t' Hin) in Hen; [done | by symmetry].
Qed.

Lemma disabled_target_pruned_witness :
  ∃ produced,
    main (Return {| config_cameras :=
                      Some [example_target "cam-1" None None;
                            example_target "cam-2" (Some (PyBool false)) None] |})
      (serving "https://shop.example/cam-1" page_plain_price)
      (Return {| last_updated := Some "2024-01-01T00:00:00+00:00";
                 cameras := Some [reading "cam-2" (Some price_199_99)] |})
      "2024-01-02T00:00:00+00:00"
    = Return (save_prices "2024-01-02T00:00:00+00:00" produced)
    ∧ "cam-2" ∉ cam_id <$> produced.
Proof.
  destruct (disabled_target_pruned
              (serving "https://shop.example/cam-1" page_plain_price)
              [example_target "cam-1" None None] []
              (example_target "cam-2" (Some (PyBool false)) None)
              (Return {| last_updated := Some "2024-01-01T00:00:00+00:00";
                         cameras := Some [reading "cam-2" (Some price_199_99)] |})
              {| last_updated := Some "2024-01-01T00:00:00+00:00";
                 cameras := Some [reading "cam-2" (Some price_199_99)] |}
              "2024-01-02T00:00:00+00:00" eq_refl eq_refl)
    as (produced & Hmain & _ & _ & Habsent).
  exists produced. split; [exact Hmain |].
  apply Habsent. intros t' Hin Hid.
  apply list_elem_of_singleton in Hin as ->. discriminate Hid.
Defined.

(** C10.  A target without the key [enabled] is scraped like an enabled one:
    its reading is among the scraped readings and in the merged snapshot.
    An enabled target without the key [price_selector] is scraped too, and
    the price of its reading is the one [fetch_price] returns for the
    selector [.price]. *)
Theorem missing_keys_use_defaults :
  ∀ (web : Web) (cameras_config : config) (existing_data : snapshot)
    (t : target),
    t ∈ targets_of cameras_config →
    (t_enabled t = None →
       ∃ scraped p,
         scrape_all_cameras web cameras_config = Return scraped
         ∧ fetch_price web (t_url t) (default ".price" (t_price_selector t))
           = Return p
         ∧ make_result t p ∈ scraped
         ∧ ∃ c, c ∈ merge_prices scraped existing_data ∧ built_from t c)
    ∧ (is_enabled t = true → t_price_selector t = None →
       ∃ scraped p,
         scrape_all_cameras web cameras_config = Return scraped
         ∧ fetch_price web (t_url t) ".price" = Return p
         ∧ make_result t p ∈ scraped
         ∧ ∃ c, c ∈ merge_prices scraped existing_data ∧ built_from t c).
Proof.
  intros web cameras_config existing_data t Ht.
  split.
  - intros Hflag.
    assert (is_enabled t = true) as Hen by (unfold is_enabled; by rewrite Hflag).
    destruct (enabled_target_scraped web _ existing_data t Ht Hen)
      as (scraped & Hscrape & Hin & c & Hc & Hbuilt & _).
    exists scraped, (fetched web t).
    split; [done |]. split; [apply fetched_eq |]. split; [done |].
    by exists c.
  - intros Hen Hsel.
    destruct (enabled_target_scraped web _ existing_data t Ht Hen)
      as (scraped & Hscrape & Hin & c & Hc & Hbuilt & _).
    exists scraped, (fetched web t).
    split; [done |]. split; [| split; [done | by exists c]].
    rewrite <- fetched_eq. by rewrite Hsel.
Qed.

Lemma missing_keys_use_defaults_witness :
  ∃ scraped p,
    scrape_all_cameras
      (serving "https://shop.example/cam-1" page_plain_price)
      {| config_cameras := Some [example_target "cam-1" None None] |}
    = Return scraped
    ∧ fetch_price (serving "https://shop.example/cam-1" page_plain_price)
        "https://shop.example/cam-1" ".price" = Return p
    ∧ make_result (example_target "cam-1" None None) p ∈ scraped.
Proof.
  destruct (missing_keys_use_defaults
              (serving "https://shop.example/cam-1" page_plain_price)
              {| config_cameras := Some [example_target "cam-1" None None] |}
              {| last_updated := None; cameras := None |}
              (example_target "cam-1" None None)
              ltac:(by left)) as [Hflag Hsel].
  destruct (Hflag eq_refl) as (scraped & p & Hscrape & Hfetch & Hin & _).
  destruct (Hsel eq_refl eq_refl) as (scraped' & p' & _ & Hfetch' & _).
  exists scraped, p. split; [exact Hscrape |]. split; [| exact Hin].
  exact Hfetch.
Defined.

(** * Further properties *)

(** ** [parse_price]: which texts have a price *)

Lemma count_chars_app p (a b : string) :
  count_chars p (a +:+ b) = (count_chars p a + count_chars p b)%nat.
Proof. induction a as [|x a IH]; simpl; [done | rewrite IH; lia]. Qed.

Lemma is_point_price_char c : is_point c = true → is_price_char c = true.
Proof. unfold is_point, is_price_char. intros ->. apply orb_true_r. Qed.

Lemma is_point_not_digit c : is_point c = true → is_digit c = false.
Proof. unfold is_point. by intros ->%Ascii.eqb_eq. Qed.

(** [re.sub] removes no digit and no decimal point. *)
Lemma count_chars_re_sub p (s : string) :
  (∀ c, p c = true → is_price_char c = true) →
  count_chars p (re_sub_non_price s) = count_chars p s.
Proof.
  intros Hp. induction s as [|x s IH]; simpl; [done |].
  destruct (is_price_char x) eqn:Hx; simpl; [by rewrite IH |].
  destruct (p x) eqn:Hpx; [| done].
  apply Hp in Hpx. congruence.
Qed.

Lemma count_digits_digits (d : string) :
  digits d → count_chars is_digit d = String.length d.
Proof.
  unfold digits. induction d as [|x d IH]; simpl; [done |].
  intros [-> Hd]%andb_true_iff. by rewrite IH.
Qed.

Lemma count_points_digits (d : string) :
  digits d → count_chars is_point d = 0%nat.
Proof.
  unfold digits. induction d as [|x d IH]; simpl; [done |].
  intros [Hx Hd]%andb_true_iff. rewrite IH by done.
  destruct (is_point x) eqn:Hp; [| done].
  apply is_point_not_digit in Hp. congruence.
Qed.

(** Every string is its leading digits and a rest that starts with none. *)
Lemma leading_digits (s : string) :
  ∃ d r, s = d +:+ r ∧ digits d ∧ no_leading_digit r.
Proof.
  induction s as [|x s (d & r & -> & Hd & Hr)].
  { by exists EmptyString, EmptyString. }
  destruct (is_digit x) eqn:Hx.
  - exists (String x d), r. split; [done |]. split; [| done].
    unfold digits in *. simpl. by rewrite Hx, Hd.
  - by exists EmptyString, (String x (d +:+ r)).
Qed.

Lemma price_char_not_digit c :
  is_price_char c = true → is_digit c = false → c = "."%char.
Proof.
  unfold is_price_char. intros Hc Hd. rewrite Hd in Hc.
  by apply Ascii.eqb_eq in Hc.
Qed.

(** [float] on a string of digits and decimal points: there is a number
    exactly when there is a digit and no second point. *)
Lemma py_float_returns_iff (s : string) :
  string_forall is_price_char s = true →
  (∃ f, py_float s = Return f)
  ↔ (1 ≤ count_chars is_digit s ∧ count_chars is_point s ≤ 1)%nat.
Proof.
  intros Hs.
  destruct (leading_digits s) as (d1 & r1 & -> & Hd1 & Hr1).
  unfold py_float. rewrite read_digits_app by done.
  rewrite !count_chars_app, count_digits_digits, count_points_digits by done.
  rewrite string_forall_app in Hs. apply andb_true_iff in Hs as [_ Hs].
  destruct r1 as [|c r2]; simpl in *.
  { destruct (String.length d1); simpl;
      (split; [first [lia | by intros [? [=]]] | first [by eauto | lia]]). }
  apply andb_true_iff in Hs as [Hc Hs].
  rewrite (price_char_not_digit c Hc Hr1) in *. simpl.
  destruct (leading_digits r2) as (d2 & r3 & -> & Hd2 & Hr3).
  rewrite read_digits_app by done.
  rewrite !count_chars_app, count_digits_digits, count_points_digits by done.
  rewrite string_forall_app in Hs. apply andb_true_iff in Hs as [_ Hs].
  destruct r3 as [|c' r4]; simpl in *.
  { destruct (String.length d1), (String.length d2); simpl;
      (split; [first [lia | by intros [? [=]]] | first [by eauto | lia]]). }
  apply andb_true_iff in Hs as [Hc' Hs].
  rewrite (price_char_not_digit c' Hc' Hr3) in *. simpl.
  split; [intros [? [=]] | lia].
Qed.

(** X1.  [parse_price] returns a number exactly for the texts that hold at
    least one digit and at most one decimal point; for every other text it
    returns [None]. *)
Theorem parse_price_number_iff :
  ∀ text : string,
    ((∃ f, parse_price (Some text) = Return (Some f))
     ↔ (1 ≤ count_chars is_digit text ∧ count_chars is_point text ≤ 1)%nat)
    ∧ (parse_price (Some text) = Return None
       ↔ (count_chars is_digit text = 0 ∨ 2 ≤ count_chars is_point text)%nat).
Proof.
  intros text.
  assert ((∃ f, parse_price (Some text) = Return (Some f))
     ↔ (1 ≤ count_chars is_digit text ∧ count_chars is_point text ≤ 1)%nat)
    as Hiff.
  { destruct text as [|c r]; [simpl; split; [intros [? [=]] | lia] |].
    rewrite parse_price_cleaned by done.
    rewrite <- (count_chars_re_sub is_digit (String c r))
      by apply digit_is_price_char.
    rewrite <- (count_chars_re_sub is_point (String c r))
      by apply is_point_price_char.
    rewrite <- py_float_returns_iff by apply re_sub_price_chars.
    destruct (py_float _) as [f|e] eqn:Hf; simpl.
    - split; eauto.
    - apply py_float_raises in Hf as ->. simpl.
      split; intros [? [=]]. }
  split; [exact Hiff |].
  destruct (parse_price_returns (Some text)) as [[f|] Hr]; rewrite Hr.
  - split; [intros [=] |]. intros Hcount.
    destruct Hiff as [Hnumber _].
    pose proof (Hnumber (ex_intro _ f Hr)). lia.
  - split; [| done]. intros _.
    destruct (decide (count_chars is_digit text = 0%nat)) as [|Hd]; [by left |].
    right. destruct (decide (2 ≤ count_chars is_point text)%nat); [done |].
    destruct Hiff as [_ Hiff]. destruct Hiff as [f Hf]; [lia |]. congruence.
Qed.

(** ** [parse_price]: what the text outside the numeral does *)

Lemma parse_price_by_cleaned (text : string) :
  parse_price (Some text)
  = try_except (f ← py_float (re_sub_non_price text); mret (Some f))
      [([ValueError; TypeError], Return None)].
Proof. destruct text; [reflexivity | by apply parse_price_cleaned]. Qed.

(** X2.  [parse_price] sees the digits and decimal points of a text, in
    their order, and nothing else: two texts with the same ones have the same
    result, and characters of any other kind (currency signs, letters,
    commas, spaces, a minus sign) can be put anywhere in a text without
    changing its result. *)
Theorem parse_price_ignores_other_chars :
  (∀ x y : string,
     re_sub_non_price x = re_sub_non_price y →
     parse_price (Some x) = parse_price (Some y))
  ∧ (∀ a junk b : string,
       no_price_char junk →
       parse_price (Some (a +:+ junk +:+ b)) = parse_price (Some (a +:+ b))).
Proof.
  assert (∀ x y, re_sub_non_price x = re_sub_non_price y →
                 parse_price (Some x) = parse_price (Some y)) as Hsame.
  { intros x y Hxy. by rewrite !parse_price_by_cleaned, Hxy. }
  split; [exact Hsame |].
  intros a junk b Hjunk. apply Hsame.
  by rewrite !re_sub_app, (re_sub_no_price_char junk).
Qed.

Lemma parse_price_ignores_other_chars_witness :
  parse_price (Some "1 299,-.50 USD") = parse_price (Some "$1299.50")
  ∧ parse_price (Some "-12") = parse_price (Some "12").
Proof.
  destruct parse_price_ignores_other_chars as [Hsame Hjunk].
  split.
  - apply (Hsame "1 299,-.50 USD" "$1299.50"). reflexivity.
  - apply (Hjunk EmptyString "-" "12"). reflexivity.
Defined.

(** ** [parse_price]: the sign of the result *)

Lemma shr_1_nonneg (mrs : shr_record) :
  0 ≤ shr_m mrs → 0 ≤ shr_m (shr_1 mrs).
Proof.
  destruct mrs as [m r s]. simpl. intros Hm.
  destruct m as [|p|p]; [done | | lia].
  destruct p; simpl; lia.
Qed.

Lemma iter_pos_shr_1_nonneg (p : positive) (mrs : shr_record) :
  0 ≤ shr_m mrs → 0 ≤ shr_m (SpecFloat.iter_pos shr_1 p mrs).
Proof.
  revert mrs. induction p as [p IH|p IH|]; intros mrs Hm; simpl.
  - by apply IH, IH, shr_1_nonneg.
  - by apply IH, IH.
  - by apply shr_1_nonneg.
Qed.

Lemma shr_fexp_nonneg (m e : Z) (l : location) :
  0 ≤ m → 0 ≤ shr_m (fst (shr_fexp Float.prec Float.emax m e l)).
Proof.
  intros Hm. unfold shr_fexp, shr.
  assert (0 ≤ shr_m (shr_record_of_loc m l)) as Hrec.
  { by destruct l as [|[]]. }
  destruct (_ - e) as [|p|p]; simpl; [done | | done].
  by apply iter_pos_shr_1_nonneg.
Qed.

Lemma round_nearest_even_nonneg (m : Z) (l : location) :
  0 ≤ m → 0 ≤ round_nearest_even m l.
Proof.
  intros Hm. destruct l as [|[]]; simpl; [done | | done | lia].
  destruct (Z.even m); lia.
Qed.

Lemma binary_round_aux_nonneg (mx ex : Z) (lx : location) :
  0 ≤ mx →
  nonneg_float (binary_round_aux Float.prec Float.emax false mx ex lx) = true.
Proof.
  intros Hmx. unfold binary_round_aux.
  pose proof (shr_fexp_nonneg mx ex lx Hmx) as H1.
  destruct (shr_fexp _ _ mx ex lx) as [mrs' e']. simpl in H1.
  pose proof (shr_fexp_nonneg _ e' loc_Exact
    (round_nearest_even_nonneg _ (loc_of_shr_record mrs') H1)) as H2.
  destruct (shr_fexp _ _ (round_nearest_even _ _) e' loc_Exact)
    as [mrs'' e'']. simpl in H2.
  destruct (shr_m mrs'') as [|p|p]; [done | | lia].
  by destruct (e'' <=? _).
Qed.

Lemma SFdiv_core_nonneg (mx my : positive) (ex ey : Z) :
  0 ≤ fst (fst (SFdiv_core_binary Float.prec Float.emax
                  (Z.pos mx) ex (Z.pos my) ey)).
Proof.
  unfold SFdiv_core_binary.
  set (m' := match _ - _ - _ with
             | Z0 => Z.pos mx
             | Z.pos _ => Z.shiftl (Z.pos mx) _
             | Z.neg _ => 0
             end).
  assert (0 ≤ m') as Hm'.
  { unfold m'. destruct (_ - _ - _); [lia | | lia].
    by apply Z.shiftl_nonneg. }
  pose proof (Z.div_pos m' (Z.pos my) Hm' ltac:(lia)) as Hq.
  unfold Z.div in Hq. by destruct (Z.div_eucl m' (Z.pos my)).
Qed.

(** The float nearest to a decimal that is not negative is not negative, and
    is a number. *)
Lemma of_decimal_nonneg (m : Z) (k : nat) :
  0 ≤ m → nonneg_float (Float.of_decimal m k) = true.
Proof.
  intros Hm. unfold Float.of_decimal.
  assert (0 < 10 ^ Z.of_nat k) as Hpow by (apply Z.pow_pos_nonneg; lia).
  destruct (10 ^ Z.of_nat k) as [|q|q]; [lia | | lia].
  destruct m as [|p|p]; [done | | lia].
  unfold Float.of_Z, SFdiv.
  pose proof (SFdiv_core_nonneg p q 0 0) as Hcore.
  destruct (SFdiv_core_binary _ _ _ _ _ _) as [[mz ez] lz]. simpl in Hcore.
  by apply binary_round_aux_nonneg.
Qed.

Lemma digit_value_nonneg c : is_digit c = true → 0 ≤ digit_value c.
Proof.
  unfold is_digit, digit_value. intros [H _]%andb_true_iff.
  apply N.leb_le in H. lia.
Qed.

Lemma read_digits_nonneg (s : string) (acc : Z) (n : nat) :
  0 ≤ acc → 0 ≤ (read_digits s acc n).1.1.
Proof.
  revert acc n. induction s as [|c r IH]; intros acc n Hacc; simpl; [done |].
  destruct (is_digit c) eqn:Hc; [| done].
  apply IH. pose proof (digit_value_nonneg c Hc). lia.
Qed.

Lemma py_float_nonneg (s : string) f :
  py_float s = Return f → nonneg_float f = true.
Proof.
  unfold py_float.
  pose proof (read_digits_nonneg s 0 0 ltac:(done)) as H1.
  destruct (read_digits s 0 0) as [[ip ni] r1]. simpl in H1.
  destruct r1 as [|c r2].
  - destruct (ni =? 0)%nat; [done |]. intros [= <-].
    by apply of_decimal_nonneg.
  - destruct (Ascii.eqb c "."); [| done].
    pose proof (read_digits_nonneg r2 ip 0 H1) as H2.
    destruct (read_digits r2 ip 0) as [[m nf] r3]. simpl in H2.
    destruct r3; [| done].
    destruct (ni + nf =? 0)%nat; [done |]. intros [= <-].
    by apply of_decimal_nonneg.
Qed.

Lemma parse_price_nonneg (price_text : option string) (f : spec_float) :
  parse_price price_text = Return (Some f) → nonneg_float f = true.
Proof.
  destruct price_text as [text|]; [| done].
  rewrite parse_price_by_cleaned.
  destruct (py_float _) as [g|e] eqn:Hg; simpl.
  - intros [= <-]. by eapply py_float_nonneg.
  - apply py_float_raises in Hg as ->. done.
Qed.

(** X3.  A price [parse_price] returns is never negative and never NaN: it
    is zero, a positive number or plus infinity.  A minus sign in the text
    is dropped with the other characters. *)
Theorem parse_price_never_negative :
  ∀ (price_text : option string) (f : spec_float),
    parse_price price_text = Return (Some f) → nonneg_float f = true.
Proof.
  intros [text|] f; [| done].
  rewrite parse_price_by_cleaned.
  destruct (py_float _) as [g|e] eqn:Hg; simpl.
  - intros [= <-]. by eapply py_float_nonneg.
  - apply py_float_raises in Hg as ->. done.
Qed.

Lemma parse_price_never_negative_witness :
  nonneg_float (Float.of_decimal 4999 2) = true.
Proof.
  apply (parse_price_never_negative (Some "-$49.99") (Float.of_decimal 4999 2)).
  reflexivity.
Defined.

(** ** [fetch_price]: failures and the order of the fallback selectors *)

Lemma fetch_price_clauses_catch e :
  try_except (Raise e) fetch_price_clauses = Return None.
Proof.
  simpl. destruct (issubclass e RequestException); [done |].
  simpl. by rewrite issubclass_Exception.
Qed.

(** X4.  [fetch_price] raises nothing.  Whatever fails on the way (the
    request, the parsing of the page, the primary selector, a fallback
    selector) the result is [None]. *)
Theorem fetch_price_never_raises :
  ∀ (web : Web) (url price_selector : string),
    (∃ r, fetch_price web url price_selector = Return r)
    ∧ (∀ e, web url = Raise e →
            fetch_price web url price_selector = Return None)
    ∧ (∀ soup e, web url = Return soup → soup price_selector = Raise e →
                 fetch_price web url price_selector = Return None)
    ∧ (∀ soup e, web url = Return soup → soup price_selector = Return None →
                 try_fallbacks soup fallback_selectors = Raise e →
                 fetch_price web url price_selector = Return None).
Proof.
  intros web url sel.
  split; [apply fetch_price_returns |].
  split; [intros e; apply fetch_price_raise |].
  split.
  - intros soup e Hweb Hsel. rewrite (fetch_price_page _ _ _ _ Hweb).
    unfold extract_price. rewrite Hsel. apply fetch_price_clauses_catch.
  - intros soup e Hweb Hsel Hloop. rewrite (fetch_price_page _ _ _ _ Hweb).
    unfold extract_price. rewrite Hsel.
    change (try_except (try_fallbacks soup fallback_selectors)
              fetch_price_clauses = Return None).
    rewrite Hloop. apply fetch_price_clauses_catch.
Qed.

Lemma fetch_price_never_raises_witness :
  fetch_price offline "https://shop.example/cam" ".price" = Return None
  ∧ fetch_price
      (serving "https://shop.example/cam" (λ _, Raise SelectorSyntaxError))
      "https://shop.example/cam" "..price" = Return None.
Proof.
  split.
  - destruct (fetch_price_never_raises offline
                "https://shop.example/cam" ".price") as (_ & Hweb & _).
    apply (Hweb RequestException). reflexivity.
  - destruct (fetch_price_never_raises
                (serving "https://shop.example/cam"
                   (λ _, Raise SelectorSyntaxError))
                "https://shop.example/cam" "..price") as (_ & _ & Hsel & _).
    apply (Hsel (λ _, Raise SelectorSyntaxError) SelectorSyntaxError);
      reflexivity.
Defined.

Lemma try_fallbacks_passed_over (soup : Soup) (s : string) (rest : list string) :
  passed_over soup s →
  try_fallbacks soup (s :: rest) = try_fallbacks soup rest.
Proof.
  intros [Hs | (el & Hs & Hc & p & Hp & Hfalse)]; simpl; rewrite Hs; simpl.
  - done.
  - rewrite Hc, Hp. simpl. by rewrite Hfalse.
Qed.

Lemma try_fallbacks_skip (soup : Soup) (pre rest : list string) :
  Forall (passed_over soup) pre →
  try_fallbacks soup (pre ++ rest) = try_fallbacks soup rest.
Proof.
  induction 1 as [|s pre Hs _ IH]; [done |].
  rewrite <- app_comm_cons, try_fallbacks_passed_over by done. exact IH.
Qed.

(** X5.  The fallback loop goes past every selector that matches nothing or
    whose element, without a [content] attribute, has a text that gives no
    price or a price of zero.  The first selector of another kind decides,
    whatever the later ones match: an element with a [content] attribute
    gives the parse of that attribute, an element without one the price of
    its text.  When every selector is gone past, the result is [None]. *)
Theorem try_fallbacks_first_decisive :
  ∀ (soup : Soup) (pre : list string),
    Forall (passed_over soup) pre →
    try_fallbacks soup pre = Return None
    ∧ (∀ s el post,
         soup s = Return (Some el) → truthy_str (get_content el) = true →
         try_fallbacks soup (pre ++ s :: post) = parse_price (get_content el))
    ∧ (∀ s el p post,
         soup s = Return (Some el) → truthy_str (get_content el) = false →
         parse_price (Some (get_text el)) = Return (Some p) →
         Float.truthy p = true →
         try_fallbacks soup (pre ++ s :: post) = Return (Some p)).
Proof.
  intros soup pre Hpre. split; [| split].
  - rewrite <- (app_nil_r pre). by rewrite try_fallbacks_skip.
  - intros s el post Hs Hc. rewrite try_fallbacks_skip by done.
    simpl. rewrite Hs. simpl. by rewrite Hc.
  - intros s el p post Hs Hc Hp Htrue. rewrite try_fallbacks_skip by done.
    simpl. rewrite Hs. simpl. rewrite Hc, Hp. simpl. by rewrite Htrue.
Qed.

Lemma try_fallbacks_first_decisive_witness :
  try_fallbacks page_free_first fallback_selectors
  = Return (Some (Float.of_decimal 5 0)).
Proof.
  assert (Forall (passed_over page_free_first)
            [attr_sel EmptyString "class" "*=" "price";
             attr_sel EmptyString "id" "*=" "price"]) as Hpre.
  { constructor; [| constructor; [| constructor]].
    - right. eexists. split; [reflexivity |]. split; [reflexivity |].
      eexists. split; reflexivity.
    - left. reflexivity. }
  destruct (try_fallbacks_first_decisive page_free_first _ Hpre)
    as (_ & _ & Htext).
  apply (Htext ".product-price"
           {| get_text := "$5.00"; get_content := None |}
           (Float.of_decimal 5 0)
           [".current-price"; attr_sel "span" "itemprop" "=" "price";
            attr_sel "meta" "itemprop" "=" "price"]);
    reflexivity.
Defined.

(** ** [merge_prices] and [main]: composition *)

Lemma merge_one_again (m : gmap string (option spec_float)) (c : camera) :
  merge_one m (merge_one m c) = merge_one m c.
Proof.
  unfold merge_one.
  destruct (cam_price c) as [q|] eqn:Hc; [by rewrite Hc |].
  destruct (m !! cam_id c) as [p|] eqn:Hm; simpl; [| by rewrite Hc, Hm].
  rewrite Hm. by destruct p.
Qed.

(** X7.  Merging a second time with the same prior snapshot changes
    nothing, for every list of readings and every prior snapshot. *)
Theorem merge_prices_twice :
  ∀ (new_cameras : list camera) (existing_data : snapshot),
    merge_prices (merge_prices new_cameras existing_data) existing_data
    = merge_prices new_cameras existing_data.
Proof.
  intros new_cameras existing_data. unfold merge_prices.
  rewrite <- list_fmap_compose. apply list_fmap_ext.
  intros k c _. apply merge_one_again.
Qed.

(** X6.  Up to the writing of the new file, a run fails in two ways only:
    the configuration does not load, or reading the previous snapshot raises
    something else than "file not found" or "not JSON" (a permission error,
    bytes that are not UTF-8).  It then raises that very exception.  Nothing
    the network or a page does makes a run fail. *)
Theorem main_raises_iff :
  ∀ (config_file : outcome config) (web : Web)
    (output_file : outcome snapshot) (now : string) (e : exn),
    main config_file web output_file now = Raise e
    ↔ config_file = Raise e
      ∨ ((∃ cfg, config_file = Return cfg)
         ∧ output_file = Raise e
         ∧ issubclass e FileNotFoundError = false
         ∧ issubclass e JSONDecodeError = false).
Proof.
  intros config_file web output_file now e. unfold main.
  destruct config_file as [cfg|e0]; simpl.
  2: { split; [intros [= ->]; by left |].
       intros [[= ->] | [[? [=]] _]]. done. }
  rewrite scrape_all_cameras_eq. simpl.
  destruct output_file as [d|e1]; simpl.
  { split; [done |]. intros [[=] | (_ & [=] & _)]. }
  destruct (issubclass e1 FileNotFoundError) eqn:H1; simpl.
  { split; [done |]. intros [[=] | (_ & [= ->] & ? & _)]. congruence. }
  destruct (issubclass e1 JSONDecodeError) eqn:H2; simpl.
  { split; [done |]. intros [[=] | (_ & [= ->] & _ & ?)]. congruence. }
  split.
  - intros [= ->]. right. eauto.
  - intros [[=] | (_ & [= ->] & _)]. done.
Qed.

Lemma merge_one_make_result (prior : list camera) (t : target) p :
  merge_one (existing_prices_of prior) (make_result t p)
  = make_result t (merged_price p prior t).
Proof.
  unfold merge_one, merged_price, prior_price.
  rewrite existing_prices_lookup. simpl.
  destruct p as [q|]; [done |].
  by destruct (prior_reading prior (t_id t)).
Qed.

Lemma main_value (web : Web) (cameras_config : config) output_file existing now :
  load_existing_prices output_file = Return existing →
  main (Return cameras_config) web output_file now
  = Return {| last_updated := Some now;
              cameras := Some ((λ t, make_result t
                                  (merged_price (fetched web t)
                                     (readings_of existing) t))
                               <$> filter (λ t, is_enabled t = true)
                                     (targets_of cameras_config)) |}.
Proof.
  intros Hload. rewrite (main_eq _ _ _ _ _ Hload).
  unfold save_prices, merge_prices. do 3 f_equal.
  rewrite <- list_fmap_compose. apply list_fmap_ext.
  intros k t _. apply merge_one_make_result.
Qed.

(** X8.  What a run writes, when the previous snapshot is read or replaced
    by the empty one: the time of the run, and for each enabled target, in
    the order of the configuration, the reading built from the target with
    the price fetched for it or, when nothing was fetched, the price the
    previous snapshot holds for its identifier. *)
Theorem main_writes :
  ∀ (web : Web) (cameras_config : config) (output_file : outcome snapshot)
    (existing_data : snapshot) (now : string),
    load_existing_prices output_file = Return existing_data →
    main (Return cameras_config) web output_file now
    = Return {| last_updated := Some now;
                cameras := Some ((λ t, make_result t
                                    (merged_price (fetched web t)
                                       (readings_of existing_data) t))
                                 <$> filter (λ t, is_enabled t = true)
                                       (targets_of cameras_config)) |}
    ∧ ∀ t, fetch_price web (t_url t) (default ".price" (t_price_selector t))
           = Return (fetched web t).
Proof.
  intros web cameras_config output_file existing_data now Hload.
  split; [by apply main_value | intros t; apply fetched_eq].
Qed.

Lemma main_writes_witness :
  main (Return {| config_cameras :=
                    Some [example_target "cam-1" None None;
                          example_target "cam-2" None None] |})
    (serving "https://shop.example/cam-1" page_plain_price)
    (Return {| last_updated := Some "2024-01-01T00:00:00+00:00";
               cameras := Some [reading "cam-2" (Some price_199_99)] |})
    "2024-01-02T00:00:00+00:00"
  = Return
      {| last_updated := Some "2024-01-02T00:00:00+00:00";
         cameras :=
           Some [make_result (example_target "cam-1" None None)
                   (Some (Float.of_decimal 24999 2));
                 make_result (example_target "cam-2" None None)
                   (Some price_199_99)] |}.
Proof.
  destruct (main_writes
              (serving "https://shop.example/cam-1" page_plain_price)
              {| config_cameras :=
                   Some [example_target "cam-1" None None;
                         example_target "cam-2" None None] |}
              (Return {| last_updated := Some "2024-01-01T00:00:00+00:00";
                         cameras := Some [reading "cam-2" (Some price_199_99)] |})
              {| last_updated := Some "2024-01-01T00:00:00+00:00";
                 cameras := Some [reading "cam-2" (Some price_199_99)] |}
              "2024-01-02T00:00:00+00:00" eq_refl) as [Hmain _].
  rewrite Hmain. vm_compute. reflexivity.
Defined.

Lemma prior_price_of_built (ts : list target) (price : target → option spec_float)
    (t : target) :
  NoDup (t_id <$> ts) → t ∈ ts →
  prior_price ((λ t, make_result t (price t)) <$> ts) (t_id t) = price t.
Proof.
  intros Hnd Ht. unfold prior_price.
  change (t_id t) with (cam_id (make_result t (price t))).
  rewrite prior_reading_unique; [done | |].
  - by rewrite <- list_fmap_compose.
  - by apply (list_elem_of_fmap_2 (λ t, make_result t (price t))).
Qed.

Lemma readings_of_written (stamp : option string) (cs : list camera) :
  readings_of {| last_updated := stamp; cameras := Some cs |} = cs.
Proof. reflexivity. Qed.

(** X9.  Two runs on one configuration whose enabled targets have pairwise
    distinct identifiers, the second reading what the first wrote.  The
    second run writes, for each enabled target, the price it fetches, else
    the price the first run fetched, else the price from before the first
    run.  So when every fetch of the second run fails, it writes the
    readings of the first run again. *)
Theorem main_carries_prices_forward :
  ∀ (web1 web2 : Web) (cameras_config : config)
    (output_file : outcome snapshot) (existing_data : snapshot)
    (now1 now2 : string) (written1 : snapshot),
    NoDup (t_id <$> filter (λ t, is_enabled t = true)
                      (targets_of cameras_config)) →
    load_existing_prices output_file = Return existing_data →
    main (Return cameras_config) web1 output_file now1 = Return written1 →
    main (Return cameras_config) web2 (Return written1) now2
    = Return {| last_updated := Some now2;
                cameras := Some ((λ t, make_result t
                   (match fetched web2 t with
                    | Some q => Some q
                    | None => merged_price (fetched web1 t)
                                (readings_of existing_data) t
                    end))
                  <$> filter (λ t, is_enabled t = true)
                        (targets_of cameras_config)) |}
    ∧ ((∀ t, t ∈ targets_of cameras_config → is_enabled t = true →
             fetched web2 t = None) →
       main (Return cameras_config) web2 (Return written1) now2
       = Return {| last_updated := Some now2;
                   cameras := cameras written1 |}).
Proof.
  intros web1 web2 cameras_config output_file existing_data now1 now2 written1
    Hnd Hload Hrun1.
  rewrite (main_value web2 cameras_config (Return written1) written1 now2
             eq_refl).
  rewrite (main_value _ _ _ _ _ Hload) in Hrun1. injection Hrun1 as <-.
  rewrite readings_of_written. simpl.
  split.
  - do 3 f_equal. apply list_fmap_ext. intros k t Hk.
    unfold merged_price at 1. destruct (fetched web2 t); [done |].
    f_equal.
    apply (prior_price_of_built _
             (λ t, merged_price (fetched web1 t) (readings_of existing_data) t));
      [done |].
    by eapply list_elem_of_lookup_2.
  - intros Hfail. do 3 f_equal. apply list_fmap_ext. intros k t Hk.
    apply list_elem_of_lookup_2 in Hk as Hin.
    pose proof Hin as [Hen Ht]%list_elem_of_filter.
    unfold merged_price at 1. rewrite (Hfail t Ht Hen).
    f_equal.
    by apply (prior_price_of_built _
                (λ t, merged_price (fetched web1 t)
                        (readings_of existing_data) t)).
Qed.

Lemma main_carries_prices_forward_witness :
  main (Return {| config_cameras := Some [example_target "cam-1" None None] |})
    offline
    (Return {| last_updated := Some "2024-01-02T00:00:00+00:00";
               cameras :=
                 Some [make_result (example_target "cam-1" None None)
                         (Some (Float.of_decimal 24999 2))] |})
    "2024-01-03T00:00:00+00:00"
  = Return {| last_updated := Some "2024-01-03T00:00:00+00:00";
              cameras :=
                Some [make_result (example_target "cam-1" None None)
                        (Some (Float.of_decimal 24999 2))] |}.
Proof.
  destruct (main_carries_prices_forward
              (serving "https://shop.example/cam-1" page_plain_price) offline
              {| config_cameras := Some [example_target "cam-1" None None] |}
              (Raise FileNotFoundError)
              {| last_updated := None; cameras := Some [] |}
              "2024-01-02T00:00:00+00:00" "2024-01-03T00:00:00+00:00"
              {| last_updated := Some "2024-01-02T00:00:00+00:00";
                 cameras :=
                   Some [make_result (example_target "cam-1" None None)
                           (Some (Float.of_decimal 24999 2))] |}
              ltac:(compute_done) eq_refl ltac:(vm_compute; reflexivity))
    as [_ Hfail].
  apply Hfail. intros t Ht _.
  apply list_elem_of_singleton in Ht as ->. reflexivity.
Defined.

(** ** [scrape_all_cameras]: missing keys and requests *)

(** The traced [fetch_price] returns what the pure one returns, and sends
    one request. *)
Lemma traced_fetch_price (web : Web) (url price_selector : string) sent :
  Traced.fetch_price web url price_selector sent
  = (fetch_price web url price_selector, sent ++ [url]).
Proof.
  unfold Traced.fetch_price, Traced.try_except, Traced.bind,
    Traced.requests_get, Traced.lift, fetch_price.
  by destruct (web url).
Qed.

Lemma traced_enabled_entry_of (t : target) :
  Traced.entry_enabled (Traced.entry_of t) = is_enabled t.
Proof. reflexivity. Qed.

Lemma traced_scrape_loop_entry_of (web : Web) (targets : list target) sent :
  Traced.scrape_loop web (Traced.entry_of <$> targets) sent
  = (scrape_loop web targets,
     sent ++ (t_url <$> filter (λ t, is_enabled t = true) targets)).
Proof.
  revert sent. induction targets as [|t rest IH]; intros sent.
  { simpl. unfold Traced.ret. by rewrite app_nil_r. }
  rewrite fmap_cons, filter_cons.
  cbn [Traced.scrape_loop scrape_loop].
  rewrite traced_enabled_entry_of.
  destruct (is_enabled t) eqn:Ht; cbn [negb].
  - unfold Traced.bind at 1 2. cbn [Traced.lift Traced.subscript Traced.entry_of
      Traced.e_name Traced.e_url Traced.e_price_selector].
    unfold Traced.bind at 1. rewrite traced_fetch_price, fetched_eq.
    unfold Traced.bind at 1. cbn.
    unfold Traced.bind. rewrite IH, scrape_loop_eq. cbn.
    by rewrite <- app_assoc.
  - unfold Traced.bind. cbn. apply IH.
Qed.

(** X11.  The requests of [scrape_all_cameras] on a configuration in which
    every entry has its keys: one for each enabled target, to its url, in
    the order of the configuration, after those sent before, and none for a
    target that is not enabled.  The readings are those of the loop without
    the requests. *)
Theorem scrape_all_cameras_requests :
  ∀ (web : Web) (targets : list target) (sent : list string),
    Traced.scrape_all_cameras web (Some (Traced.entry_of <$> targets)) sent
    = (scrape_all_cameras web {| config_cameras := Some targets |},
       sent ++ (t_url <$> filter (λ t, is_enabled t = true) targets)).
Proof.
  intros web targets sent.
  unfold Traced.scrape_all_cameras, scrape_all_cameras. simpl.
  apply traced_scrape_loop_entry_of.
Qed.

Lemma traced_bind_lift {A B} (c : outcome A) (k : A → Traced.Net B) sent :
  Traced.bind (Traced.lift c) k sent
  = match c with
    | Return a => k a sent
    | Raise e => (Raise e, sent)
    end.
Proof. unfold Traced.bind, Traced.lift. by destruct c. Qed.

Lemma traced_scrape_loop_cases (web : Web) (entries : list Traced.entry) sent :
  ∃ r sent',
    Traced.scrape_loop web entries sent = (r, sent')
    ∧ if forallb Traced.well_shaped entries
      then ∃ scraped,
             r = Return scraped
             ∧ Forall2 (reading_of web)
                 (filter (λ cam, Traced.entry_enabled cam = true) entries)
                 scraped
      else r = Raise KeyError.
Proof.
  revert sent. induction entries as [|cam rest IH]; intros sent.
  { eexists _, _. split; [reflexivity |]. exists []. by split. }
  cbn [forallb Traced.scrape_loop]. rewrite filter_cons.
  set (shaped := forallb Traced.well_shaped rest) in *. clearbody shaped.
  unfold Traced.well_shaped.
  destruct (Traced.entry_enabled cam) eqn:Hen; cbn [negb orb].
  - rewrite traced_bind_lift.
    destruct (Traced.e_name cam) as [name|] eqn:Hname;
      cbn [Traced.subscript Traced.present andb];
      [| by eexists _, _].
    rewrite traced_bind_lift.
    destruct (Traced.e_url cam) as [url|] eqn:Hurl;
      cbn [Traced.subscript Traced.present andb];
      [| by eexists _, _].
    unfold Traced.bind at 1. rewrite traced_fetch_price.
    destruct (fetch_price_returns web url
                (default ".price" (Traced.e_price_selector cam))) as [p Hp].
    rewrite Hp, traced_bind_lift.
    unfold Traced.make_result. rewrite Hname, Hurl.
    destruct (Traced.e_id cam) as [i|] eqn:Hid;
      cbn [Traced.subscript Traced.present andb mbind outcome_bind];
      [| by eexists _, _].
    destruct (Traced.e_model cam) as [model|] eqn:Hmodel;
      cbn [Traced.subscript Traced.present andb mbind outcome_bind];
      [| by eexists _, _].
    destruct (Traced.e_category cam) as [category|] eqn:Hcategory;
      cbn [Traced.subscript Traced.present andb mbind outcome_bind mret
           outcome_ret];
      [| by eexists _, _].
    unfold Traced.bind at 1.
    destruct (IH (sent ++ [url])) as (r & sent' & -> & Hr).
    destruct shaped; cbn [andb].
    + destruct Hr as (scraped & -> & Hall).
      eexists _, _. split; [reflexivity |].
      eexists. split; [reflexivity |]. constructor; [| exact Hall].
      unfold reading_of. cbn.
      by rewrite Hname, Hurl, Hid, Hmodel, Hcategory, Hp.
    + rewrite Hr. by eexists _, _.
  - rewrite traced_bind_lift.
    destruct (Traced.e_name cam) as [name|] eqn:Hname;
      cbn [Traced.subscript Traced.present andb];
      [| by eexists _, _].
    apply IH.
Qed.

(** X10.  [scrape_all_cameras] on entries as they come.  It raises exactly
    when some entry lacks a key the loop reads with [camera[...]]: the name
    for any entry, and for an enabled one the url, the identifier, the model
    or the category; it then raises [KeyError].  Otherwise it returns one
    reading for each enabled entry, in the order of the configuration, with
    the entry's identifier, name, model, category and url, ["Unknown"] for a
    missing retailer, the empty string for a missing description, and the
    price [fetch_price] returns for the url and the entry's selector,
    [.price] when it has none. *)
Theorem scrape_all_cameras_key_errors :
  ∀ (web : Web) (entries : list Traced.entry) (sent : list string),
    (forallb Traced.well_shaped entries = true →
       ∃ scraped sent',
         Traced.scrape_all_cameras web (Some entries) sent
         = (Return scraped, sent')
         ∧ Forall2 (reading_of web)
             (filter (λ cam, Traced.entry_enabled cam = true) entries)
             scraped)
    ∧ (forallb Traced.well_shaped entries = false →
       ∃ sent',
         Traced.scrape_all_cameras web (Some entries) sent
         = (Raise KeyError, sent')).
Proof.
  intros web entries sent. unfold Traced.scrape_all_cameras. simpl.
  destruct (traced_scrape_loop_cases web entries sent)
    as (r & sent' & -> & Hr).
  split; intros Hshape; rewrite Hshape in Hr.
  - destruct Hr as (scraped & -> & Hall). by exists scraped, sent'.
  - rewrite Hr. by exists sent'.
Qed.

Lemma scrape_all_cameras_key_errors_witness :
  (∃ scraped sent',
     Traced.scrape_all_cameras
       (serving "https://shop.example/cam-1" page_plain_price)
       (Some [Traced.entry_of (example_target "cam-1" None None);
              example_entry None (Some "Old camera") None
                (Some (PyBool false))])
       []
     = (Return scraped, sent')
     ∧ Forall2
         (reading_of (serving "https://shop.example/cam-1" page_plain_price))
         [Traced.entry_of (example_target "cam-1" None None)] scraped)
  ∧ (∃ sent',
       Traced.scrape_all_cameras offline
         (Some [example_entry (Some "cam-3") None None (Some (PyBool false))])
         []
       = (Raise KeyError, sent'))
  ∧ (∃ sent',
       Traced.scrape_all_cameras offline
         (Some [example_entry None (Some "Camera 4")
                  (Some "https://shop.example/cam-4") None])
         []
       = (Raise KeyError, sent')).
Proof.
  split; [| split].
  - destruct (scrape_all_cameras_key_errors
                (serving "https://shop.example/cam-1" page_plain_price)
                [Traced.entry_of (example_target "cam-1" None None);
                 example_entry None (Some "Old camera") None
                   (Some (PyBool false))] []) as [Hok _].
    apply (Hok eq_refl).
  - destruct (scrape_all_cameras_key_errors offline
                [example_entry (Some "cam-3") None None (Some (PyBool false))]
                []) as [_ Hbad].
    apply (Hbad eq_refl).
  - destruct (scrape_all_cameras_key_errors offline
                [example_entry None (Some "Camera 4")
                   (Some "https://shop.example/cam-4") None]
                []) as [_ Hbad].
    apply (Hbad eq_refl).
Defined.

(** ** [fetch_price]: a price of zero *)

(** X12.  On a page whose elements for the fallback selectors carry no
    [content] attribute, a price the fallback loop returns is never zero:
    it is a positive number or plus infinity.  A text such as ["$0.00"] is
    gone past like a text without a price. *)
Theorem try_fallbacks_text_never_zero :
  ∀ (soup : Soup) (selectors : list string) (p : spec_float),
    (∀ s el, s ∈ selectors → soup s = Return (Some el) →
             truthy_str (get_content el) = false) →
    try_fallbacks soup selectors = Return (Some p) →
    Float.truthy p = true ∧ nonneg_float p = true.
Proof.
  intros soup selectors p. induction selectors as [|s rest IH]; [done |].
  intros Hcontent. simpl.
  assert (∀ s' el, s' ∈ rest → soup s' = Return (Some el) →
                   truthy_str (get_content el) = false) as Hrest.
  { intros s' el Hs'. apply Hcontent. by right. }
  destruct (soup s) as [[el|]|e] eqn:Hs; simpl; [| by apply IH | done].
  rewrite (Hcontent s el) by (by left || done).
  destruct (parse_price (Some (get_text el))) as [[q|]|e] eqn:Hq; simpl;
    [| by apply IH | done].
  destruct (Float.truthy q) eqn:Htrue; [| by apply IH].
  intros [= <-]. split; [done |].
  by apply (parse_price_nonneg (Some (get_text el))).
Qed.

Lemma page_elements (P : Element → Prop) (matches : list (string * Element))
    (s : string) (el : Element) :
  Forall (λ m, P m.2) matches → page matches s = Return (Some el) → P el.
Proof.
  unfold page. intros Hall [= Hs]. revert Hs.
  induction Hall as [|[s' el'] rest Hel _ IH]; simpl; [done |].
  destruct (String.eqb s' s); [by intros [= <-] | exact IH].
Qed.

Lemma try_fallbacks_text_never_zero_witness :
  Float.truthy (Float.of_decimal 5 0) = true
  ∧ nonneg_float (Float.of_decimal 5 0) = true.
Proof.
  apply (try_fallbacks_text_never_zero page_free_first fallback_selectors).
  - intros s el _ Hs.
    unfold page_free_first in Hs.
    eapply (page_elements (λ el, truthy_str (get_content el) = false));
      [| exact Hs].
    repeat constructor.
  - reflexivity.
Defined.
